(** * install_bindist.py, embedded in Rocq

    The script is five statements of Python:

      os.makedirs(sys.argv[2], exist_ok=True)
      shutil.copy(sys.argv[3], os.path.join(sys.argv[2], sys.argv[4]))
      for f in sys.argv[5:]:
          shutil.copy(os.path.join(sys.argv[1], f), os.path.join(sys.argv[2], f))

    Its behaviour is the behaviour of the library functions it calls, so
    this development embeds, next to the script, the CPython code of
    [posixpath.join], [posixpath.split], [posixpath.basename], [os.makedirs],
    [shutil.copy], [shutil.copyfile] and [shutil.copymode], over a model of
    the POSIX calls they make ([stat], [mkdir], [open], [chmod]) on a file
    system held as a finite map from absolute paths to nodes.

    Modelling choices: there are no symbolic or hard links (a file is
    identified by its absolute path), no special files (so the FIFO checks of
    [copyfile] never fire), permission bits are one read and one write bit
    for the owner, the process is not privileged, and writes do not run out
    of space. An uncaught Python exception ends the process with exit
    status 1. *)

From Stdlib Require Import String Ascii List Bool Arith Lia.
From stdpp Require Import base gmap list strings.
Import ListNotations.
Open Scope string_scope.

(* ------------------------------------------------------------------ *)
(** ** Strings: the parts of [posixpath] the script reaches *)

Definition slash : ascii := "/"%char.

(** [s.split('/')]: the components of a path, empty ones included. *)
Fixpoint components (s : string) : list string :=
  match s with
  | EmptyString => [""]
  | String c r =>
      match components r with
      | [] => []
      | x :: xs => if Ascii.eqb c slash then "" :: x :: xs
                   else String c x :: xs
      end
  end.

Definition startswith_slash (s : string) : bool :=
  match s with
  | String c _ => Ascii.eqb c slash
  | EmptyString => false
  end.

Fixpoint endswith_slash (s : string) : bool :=
  match s with
  | EmptyString => false
  | String c EmptyString => Ascii.eqb c slash
  | String _ r => endswith_slash r
  end.

Fixpoint has_slash (s : string) : bool :=
  match s with
  | EmptyString => false
  | String c r => Ascii.eqb c slash || has_slash r
  end.

(** [posixpath.join(a, b)]:
      if b.startswith(sep): path = b
      elif not path or path.endswith(sep): path += b
      else: path += sep + b *)
Definition join (a b : string) : string :=
  if startswith_slash b then b
  else if String.eqb a "" || endswith_slash a then a ++ b
  else a ++ String slash b.

(** [(p[:i], p[i:])] with [i = p.rfind('/') + 1]. *)
Fixpoint cut_last (s : string) : string * string :=
  match s with
  | EmptyString => ("", "")
  | String c r =>
      let '(h, t) := cut_last r in
      if String.eqb h "" then
        (if Ascii.eqb c slash then (String c "", t) else ("", String c t))
      else (String c h, t)
  end.

(** [s.rstrip('/')] *)
Fixpoint rstrip_slash (s : string) : string :=
  match s with
  | EmptyString => EmptyString
  | String c r =>
      let r' := rstrip_slash r in
      if String.eqb r' "" && Ascii.eqb c slash then "" else String c r'
  end.

Fixpoint all_slashes (s : string) : bool :=
  match s with
  | EmptyString => true
  | String c r => Ascii.eqb c slash && all_slashes r
  end.

(** [posixpath.split(p)]:
      i = p.rfind(sep) + 1
      head, tail = p[:i], p[i:]
      if head and head != sep*len(head):
          head = head.rstrip(sep)
      return head, tail *)
Definition psplit (p : string) : string * string :=
  let '(head, tail) := cut_last p in
  if negb (String.eqb head "") && negb (all_slashes head)
  then (rstrip_slash head, tail) else (head, tail).

(** [posixpath.basename(p)]: [p[i:]] with [i = p.rfind('/') + 1]. *)
Definition basename (p : string) : string := snd (cut_last p).

(* ------------------------------------------------------------------ *)
(** ** The file system *)

(** Owner permission bits of a regular file. *)
Record mode := Mode { mode_r : bool; mode_w : bool }.

(** A directory carries its write bit; a file its content and mode. *)
Inductive node :=
| NDir (w : bool)
| NFile (content : string) (m : mode).

(** Absolute paths are lists of names from the root [ [] ]. *)
Abbreviation apath := (list string).
Abbreviation fsys := (gmap (list string) node).

Inductive errno := ENOENT | EEXIST | ENOTDIR | EISDIR | EACCES.

(** Python exceptions the script can raise. [OSError e p] is the
    [OSError] subclass of errno [e] ([FileNotFoundError],
    [FileExistsError], ...) with filename [p]. *)
Inductive exn :=
| OSError (e : errno) (p : string)
| SameFileError (src dst : string)
| IndexError
| RecursionError.

(** The state-and-exception monad of a Python program over the file system. *)
Inductive res (A : Type) := Ok (a : A) | Exc (e : exn).
Arguments Ok {A} a.
Arguments Exc {A} e.

Definition PyM (A : Type) : Type := fsys -> res A * fsys.

Definition ret {A} (a : A) : PyM A := fun s => (Ok a, s).
Definition raise {A} (e : exn) : PyM A := fun s => (Exc e, s).
Definition bind {A B} (m : PyM A) (k : A -> PyM B) : PyM B :=
  fun s => match m s with
           | (Ok a, s') => k a s'
           | (Exc e, s') => (Exc e, s')
           end.
(** [try: m except: h(e)] *)
Definition catch {A} (m : PyM A) (h : exn -> PyM A) : PyM A :=
  fun s => match m s with
           | (Ok a, s') => (Ok a, s')
           | (Exc e, s') => h e s'
           end.
Definition get : PyM fsys := fun s => (Ok s, s).
Definition put (s : fsys) : PyM unit := fun _ => (Ok tt, s).

Notation "'let*' x := m 'in' k" := (bind m (fun x => k))
  (at level 200, x name, m at level 100, k at level 200).

(* ------------------------------------------------------------------ *)
(** ** POSIX path resolution and system calls *)

Section Posix.

(** The working directory of the process, an absolute path. *)
Variable cwd : apath.

(** One component of path resolution: [""] and ["."] stay, [".."] goes to
    the parent (the root is its own parent), a name goes down. *)
Definition step (cur : apath) (c : string) : apath :=
  if String.eqb c "" || String.eqb c "." then cur
  else if String.eqb c ".." then removelast cur
  else app cur [c].

(** The kernel's walk: before each component the current node must be an
    existing directory. The final node is not looked up. *)
Fixpoint walk (fs : fsys) (cur : apath) (cs : list string)
  : errno + apath :=
  match cs with
  | [] => inr cur
  | c :: cs' =>
      match fs !! cur with
      | Some (NDir _) => walk fs (step cur c) cs'
      | Some (NFile _ _) => inl ENOTDIR
      | None => inl ENOENT
      end
  end.

Definition start (s : string) : apath :=
  if startswith_slash s then [] else cwd.

(** [stat(s)], following the path to an existing node. *)
Definition resolve (fs : fsys) (s : string) : errno + (apath * node) :=
  if String.eqb s "" then inl ENOENT else
  match walk fs (start s) (components s) with
  | inl e => inl e
  | inr p => match fs !! p with
             | Some n => inr (p, n)
             | None => inl ENOENT
             end
  end.

(** Drop the trailing empty components (trailing slashes); the flag tells
    whether there were any. *)
Fixpoint drop_empty (cs : list string) : list string :=
  match cs with
  | c :: cs' => if String.eqb c "" then drop_empty cs' else cs
  | [] => []
  end.

Definition strip_trailing (cs : list string) : list string * bool :=
  let body := rev (drop_empty (rev cs)) in
  (body, negb (Nat.eqb (length body) (length cs))).

(** The entry a creating call ([mkdir], [open] with [O_CREAT]) works on:
    every component but the last is walked and must end in a directory;
    the last names the entry ([.] and [..] name existing directories).
    The flag is set when the path has a trailing slash. *)
Definition create_target (fs : fsys) (s : string)
  : errno + (apath * bool) :=
  if String.eqb s "" then inl ENOENT else
  let '(body, trailing) := strip_trailing (components s) in
  match rev body with
  | [] => inr (start s, trailing)
  | last :: rinit =>
      match walk fs (start s) (rev rinit) with
      | inl e => inl e
      | inr p =>
          match fs !! p with
          | Some (NDir _) =>
              if String.eqb last "." then inr (p, trailing)
              else if String.eqb last ".." then inr (removelast p, trailing)
              else inr (app p [last], trailing)
          | Some (NFile _ _) => inl ENOTDIR
          | None => inl ENOENT
          end
      end
  end.

Definition parent_writable (fs : fsys) (t : apath) : bool :=
  match fs !! removelast t with
  | Some (NDir w) => w
  | _ => false
  end.

Definition os_error {A} (e : errno) (s : string) : PyM A :=
  raise (OSError e s).

(** [os.stat(s)] *)
Definition os_stat (s : string) : PyM (apath * node) :=
  fun fs => match resolve fs s with
            | inl e => (Exc (OSError e s), fs)
            | inr r => (Ok r, fs)
            end.

(** [os.path.exists(s)]: [stat] succeeds. *)
Definition path_exists (s : string) : PyM bool :=
  catch (let* _ := os_stat s in ret true)
        (fun e => match e with OSError _ _ => ret false | _ => raise e end).

(** [os.path.isdir(s)] *)
Definition path_isdir (s : string) : PyM bool :=
  catch (let* r := os_stat s in
         match snd r with NDir _ => ret true | NFile _ _ => ret false end)
        (fun e => match e with OSError _ _ => ret false | _ => raise e end).

(** [os.mkdir(s, 0o777)]: the new directory is writable. *)
Definition os_mkdir (s : string) : PyM unit :=
  fun fs =>
    match create_target fs s with
    | inl e => (Exc (OSError e s), fs)
    | inr (t, _) =>
        match fs !! t with
        | Some _ => (Exc (OSError EEXIST s), fs)
        | None => if parent_writable fs t
                  then (Ok tt, <[t := NDir true]> fs)
                  else (Exc (OSError EACCES s), fs)
        end
    end.

(** [open(s, 'rb').read()]: the content of a readable regular file. *)
Definition read_file (s : string) : PyM string :=
  fun fs =>
    match resolve fs s with
    | inl e => (Exc (OSError e s), fs)
    | inr (_, NDir _) => (Exc (OSError EISDIR s), fs)
    | inr (_, NFile c m) =>
        if mode_r m then (Ok c, fs) else (Exc (OSError EACCES s), fs)
    end.

(** The mode [open(..., 'wb')] gives a new file: [0o666] less the umask. *)
Definition new_file_mode : mode := Mode true true.

(** [with open(s, 'wb') as f: f.write(c)]: truncate or create, then write.
    An existing file keeps its mode. *)
Definition write_file (s : string) (c : string) : PyM unit :=
  fun fs =>
    match create_target fs s with
    | inl e => (Exc (OSError e s), fs)
    | inr (t, trailing) =>
        match fs !! t with
        | Some (NDir _) => (Exc (OSError EISDIR s), fs)
        | Some (NFile _ m) =>
            if trailing then (Exc (OSError ENOTDIR s), fs)
            else if mode_w m then (Ok tt, <[t := NFile c m]> fs)
            else (Exc (OSError EACCES s), fs)
        | None =>
            if trailing then (Exc (OSError EISDIR s), fs)
            else if parent_writable fs t
            then (Ok tt, <[t := NFile c new_file_mode]> fs)
            else (Exc (OSError EACCES s), fs)
        end
    end.

Definition node_mode (n : node) : mode :=
  match n with
  | NDir w => Mode true w
  | NFile _ m => m
  end.

(** [os.chmod(s, m)], by the owner. *)
Definition os_chmod (s : string) (m : mode) : PyM unit :=
  fun fs =>
    match resolve fs s with
    | inl e => (Exc (OSError e s), fs)
    | inr (p, NDir _) => (Ok tt, <[p := NDir (mode_w m)]> fs)
    | inr (p, NFile c _) => (Ok tt, <[p := NFile c m]> fs)
    end.


(* ------------------------------------------------------------------ *)
(** ** [os.makedirs] *)

Definition is_FileExistsError (e : exn) : bool :=
  match e with OSError EEXIST _ => true | _ => false end.

Definition is_IsADirectoryError (e : exn) : bool :=
  match e with OSError EISDIR _ => true | _ => false end.

(** The first two lines of [os.makedirs]:
      head, tail = path.split(name)
      if not tail:
          head, tail = path.split(head) *)
Definition makedirs_split (name : string) : string * string :=
  let '(head, tail) := psplit name in
  if String.eqb tail "" then psplit head else (head, tail).

(** CPython's [os.makedirs(name, mode=0o777, exist_ok)]:

      head, tail = path.split(name)
      if not tail:
          head, tail = path.split(head)
      if head and tail and not path.exists(head):
          try:
              makedirs(head, exist_ok=exist_ok)
          except FileExistsError:
              pass
          if tail == curdir:
              return
      try:
          mkdir(name, mode)
      except OSError:
          if not exist_ok or not path.isdir(name):
              raise

    The recursion is on [head], a strictly shorter string ([head] is a
    prefix of [name] and [tail] is not empty); [fuel] bounds its depth and
    [makedirs] below gives it one more than the length of [name], which the
    recursion never exhausts. *)
Fixpoint makedirs_fuel (fuel : nat) (name : string) (exist_ok : bool)
  : PyM unit :=
  match fuel with
  | O => raise RecursionError
  | S fuel' =>
      let '(head, tail) := makedirs_split name in
      let* early :=
        (if negb (String.eqb head "") && negb (String.eqb tail "") then
           let* ex := path_exists head in
           if ex then ret false
           else
             let* _ := catch (makedirs_fuel fuel' head exist_ok)
                             (fun e => if is_FileExistsError e then ret tt
                                       else raise e) in
             ret (String.eqb tail ".")
         else ret false) in
      if early then ret tt
      else
        catch (os_mkdir name)
              (fun e =>
                 match e with
                 | OSError _ _ =>
                     let* d := path_isdir name in
                     if negb exist_ok || negb d then raise e else ret tt
                 | _ => raise e
                 end)
  end.

Definition makedirs (name : string) (exist_ok : bool) : PyM unit :=
  makedirs_fuel (S (String.length name)) name exist_ok.

(* ------------------------------------------------------------------ *)
(** ** [shutil.copy] *)

(** [shutil._samefile(src, dst)]:
      try: return os.path.samefile(src, dst)
      except OSError: return False
    where [samefile] compares the [stat] results; without links, equal
    [stat] identities are equal absolute paths. *)
Definition samefile (src dst : string) : PyM bool :=
  catch (let* a := os_stat src in
         let* b := os_stat dst in
         ret (bool_decide (fst a = fst b)))
        (fun e => match e with OSError _ _ => ret false | _ => raise e end).

(** CPython's [shutil.copyfile(src, dst)] (no special files, symlinks
    followed):

      if _samefile(src, dst):
          raise SameFileError(...)
      with open(src, 'rb') as fsrc:
          try:
              with open(dst, 'wb') as fdst:
                  copy the content
          except IsADirectoryError as e:
              if not os.path.exists(dst):
                  raise FileNotFoundError(f'Directory does not exist: {dst}')
              else:
                  raise *)
Definition copyfile (src dst : string) : PyM unit :=
  let* same := samefile src dst in
  if same then raise (SameFileError src dst)
  else
    let* c := read_file src in
    catch (write_file dst c)
          (fun e =>
             if is_IsADirectoryError e then
               let* ex := path_exists dst in
               if negb ex then raise (OSError ENOENT dst) else raise e
             else raise e).

(** [shutil.copymode(src, dst)]:
      st = os.stat(src)
      os.chmod(dst, stat.S_IMODE(st.st_mode)) *)
Definition copymode (src dst : string) : PyM unit :=
  let* st := os_stat src in
  os_chmod dst (node_mode (snd st)).

(** [shutil.copy(src, dst)]:
      if os.path.isdir(dst):
          dst = os.path.join(dst, os.path.basename(src))
      copyfile(src, dst)
      copymode(src, dst) *)
Definition copy (src dst : string) : PyM unit :=
  let* d := path_isdir dst in
  let dst := if d then join dst (basename src) else dst in
  let* _ := copyfile src dst in
  copymode src dst.

(* ------------------------------------------------------------------ *)
(** ** The script *)

(** [sys.argv[i]], [IndexError] past the end. *)
Definition argv_get (argv : list string) (i : nat) : PyM string :=
  match nth_error argv i with
  | Some a => ret a
  | None => raise IndexError
  end.

(** A [for] loop over a list. *)
Fixpoint for_each (l : list string) (body : string -> PyM unit) : PyM unit :=
  match l with
  | [] => ret tt
  | x :: xs => let* _ := body x in for_each xs body
  end.

(** install_bindist.py; [argv] is [sys.argv], the script name included:

      os.makedirs(sys.argv[2], exist_ok=True)
      shutil.copy(sys.argv[3], os.path.join(sys.argv[2], sys.argv[4]))
      for f in sys.argv[5:]:
          shutil.copy(os.path.join(sys.argv[1], f), os.path.join(sys.argv[2], f))

    Arguments are evaluated left to right, as Python does. *)
Definition install_bindist (argv : list string) : PyM unit :=
  let* a2 := argv_get argv 2 in
  let* _ := makedirs a2 true in
  let* a3 := argv_get argv 3 in
  let* a2 := argv_get argv 2 in
  let* a4 := argv_get argv 4 in
  let* _ := copy a3 (join a2 a4) in
  for_each (skipn 5 argv)
    (fun f =>
       let* a1 := argv_get argv 1 in
       let* a2 := argv_get argv 2 in
       copy (join a1 f) (join a2 f)).

End Posix.

(** The exit status of the interpreter: 0 on normal completion, 1 when an
    exception escapes. *)
Definition exit_status {A} (r : res A) : nat :=
  match r with Ok _ => 0 | Exc _ => 1 end.

(* ------------------------------------------------------------------ *)
(** ** Observations on a file system, and the script's calls as steps *)

(** The filename an exception reports. *)
Definition names_path (e : exn) (s : string) : Prop :=
  match e with
  | OSError _ p => p = s
  | SameFileError a b => a = s \/ b = s
  | _ => False
  end.

Definition dir_at (fs : fsys) (p : apath) : bool :=
  match fs !! p with Some (NDir _) => true | _ => false end.

Definition file_at (fs : fsys) (p : apath) : bool :=
  match fs !! p with Some (NFile _ _) => true | _ => false end.

(** The root is a directory and the parent of every entry is one. *)
Definition wf (fs : fsys) : Prop :=
  (exists w, fs !! [] = Some (NDir w)) /\
  (forall p n, fs !! p = Some n -> p <> [] ->
   exists w, fs !! removelast p = Some (NDir w)).

(** [wf] as a test, for concrete file systems. *)
Definition wf_b (fs : fsys) : bool :=
  dir_at fs [] &&
  bool_decide (map_Forall (fun p _ => p = [] \/ dir_at fs (removelast p) = true) fs).

(** Directories stay directories and regular files stay regular files. *)
Definition keeps (fs fs' : fsys) : Prop :=
  forall p, (dir_at fs p = true -> dir_at fs' p = true) /\
            (file_at fs p = true -> file_at fs' p = true).

(** A name that [join] appends as one new last entry: not empty, no
    slash, not [.] or [..]. *)
Definition plain_name (n : string) : bool :=
  negb (String.eqb n "") && negb (has_slash n) &&
  negb (String.eqb n ".") && negb (String.eqb n "..").

(** The two kinds of call the script makes. *)
Inductive fs_step :=
| SMakedirs (name : string)
| SCopy (src dst : string).

(** The calls the script makes, in order, when it has its four arguments. *)
Definition install_steps (source_dir dest_dir main_src main_dest : string)
    (extra_files : list string) : list fs_step :=
  SMakedirs dest_dir :: SCopy main_src (join dest_dir main_dest) ::
  map (fun f => SCopy (join source_dir f) (join dest_dir f)) extra_files.

(** [os.path.join(base, *names)] *)
Definition join_all (base : string) (names : list string) : string :=
  fold_left join names base.


(** A relation [R] holds between the file system before and after every
    run of [m]. *)
Definition pres {A : Type} (R : fsys -> fsys -> Prop) (m : PyM A) : Prop :=
  forall fs r fs', m fs = (r, fs') -> R fs fs'.

(** What [makedirs] may do: keep every entry, add directories only, and
    keep the file system well formed. *)
Definition adds_dirs (fs fs' : fsys) : Prop :=
  (forall p n, fs !! p = Some n -> fs' !! p = Some n) /\
  (forall p n, fs !! p = None -> fs' !! p = Some n -> exists w, n = NDir w) /\
  (wf fs -> wf fs').

(** What a run of copies may do: keep the kinds of entries and keep the
    file system well formed. *)
Definition keeps_wf (fs fs' : fsys) : Prop := keeps fs fs' /\ (wf fs -> wf fs').

(** Every directory stays as it is, write bit included. *)
Definition keeps_dirs (fs fs' : fsys) : Prop :=
  forall p w, fs !! p = Some (NDir w) -> fs' !! p = Some (NDir w).





Section Derived.
Variable cwd : apath.

Definition exists_b (fs : fsys) (s : string) : bool :=
  match resolve cwd fs s with inr _ => true | inl _ => false end.

Definition isdir_b (fs : fsys) (s : string) : bool :=
  match resolve cwd fs s with inr (_, NDir _) => true | _ => false end.

Definition same_b (fs : fsys) (a b : string) : bool :=
  match resolve cwd fs a, resolve cwd fs b with
  | inr (p1, _), inr (p2, _) => bool_decide (p1 = p2)
  | _, _ => false
  end.

(** The destination [shutil.copy] hands to [copyfile]. *)
Definition copy_dst (fs : fsys) (src dst : string) : string :=
  if isdir_b fs dst then join dst (basename src) else dst.

Definition exec_step (s : fs_step) : PyM unit :=
  match s with
  | SMakedirs name => makedirs cwd name true
  | SCopy src dst => copy cwd src dst
  end.

Fixpoint run_steps (l : list fs_step) : PyM unit :=
  match l with
  | [] => ret tt
  | s :: l' => let* _ := exec_step s in run_steps l'
  end.


End Derived.

(* ================================================================== *)
(** * Facts about the path strings *)

Fixpoint slashes (k : nat) : string :=
  match k with O => "" | S k => String slash (slashes k) end.

Definition empties (k : nat) : list string := repeat "" k.

(** stdpp declares [append] [simpl never]; these are its equations. *)
Lemma app_String (c : ascii) (a b : string) :
  String c a ++ b = String c (a ++ b).
Proof. reflexivity. Qed.

Lemma app_Empty (b : string) : "" ++ b = b.
Proof. reflexivity. Qed.

Lemma ascii_eqb_refl' (c : ascii) : Ascii.eqb c c = true.
Proof. destruct (Ascii.eqb_spec c c); congruence. Qed.

Lemma str_eqb_refl' (s : string) : String.eqb s s = true.
Proof. destruct (String.eqb_spec s s); congruence. Qed.

Lemma components_nonempty (s : string) : components s <> [].
Proof.
  induction s as [|c r IH]; simpl; [discriminate|].
  destruct (components r); [contradiction|].
  destruct (Ascii.eqb c slash); discriminate.
Qed.

Lemma components_cons (c : ascii) (r : string) :
  components (String c r) =
  if Ascii.eqb c slash then "" :: components r
  else String c (hd "" (components r)) :: tl (components r).
Proof.
  simpl. pose proof (components_nonempty r).
  destruct (components r); [contradiction|]. reflexivity.
Qed.

Lemma components_app_slash (x y : string) :
  components (x ++ String slash y) = (components x ++ components y)%list.
Proof.
  induction x as [|c r IH].
  - rewrite app_Empty. simpl. pose proof (components_nonempty y).
    destruct (components y); [contradiction|]. reflexivity.
  - rewrite app_String. simpl. rewrite IH. pose proof (components_nonempty r).
    destruct (components r) as [|x0 xs0]; [contradiction|].
    destruct (Ascii.eqb c slash); reflexivity.
Qed.

Lemma components_noslash (t : string) :
  has_slash t = false -> components t = [t].
Proof.
  induction t as [|c r IH]; simpl; [reflexivity|].
  intros H. apply orb_false_iff in H as [H1 H2].
  rewrite (IH H2), H1. reflexivity.
Qed.

Lemma components_slashes_tail (m : nat) (t : string) :
  has_slash t = false ->
  components (slashes m ++ t) = (empties m ++ [t])%list.
Proof.
  intros Ht. induction m as [|m IH].
  - apply components_noslash, Ht.
  - simpl slashes. rewrite app_String, components_cons, IH. reflexivity.
Qed.

Lemma components_slashes (m : nat) :
  components (slashes m) = empties (S m).
Proof.
  induction m as [|m IH]; [reflexivity|].
  change (slashes (S m)) with (String slash (slashes m)).
  rewrite components_cons, IH. reflexivity.
Qed.

Lemma append_assoc' (a b c : string) : (a ++ b) ++ c = a ++ (b ++ c).
Proof.
  induction a as [|x a IH]; [reflexivity|].
  rewrite !app_String, IH. reflexivity.
Qed.

Lemma append_empty_r (a : string) : a ++ "" = a.
Proof.
  induction a as [|x a IH]; [reflexivity|].
  rewrite app_String, IH. reflexivity.
Qed.

Lemma cut_last_spec (s h t : string) :
  cut_last s = (h, t) ->
  s = h ++ t /\ has_slash t = false /\
  (h = "" \/ exists h0, h = h0 ++ String slash "").
Proof.
  revert h t. induction s as [|c r IH]; simpl; intros h t E.
  - inversion E; subst. auto.
  - destruct (cut_last r) as [h' t'] eqn:Er.
    destruct (IH _ _ eq_refl) as (-> & Ht' & Hh').
    destruct (String.eqb_spec h' "") as [->|Hne].
    + destruct (Ascii.eqb_spec c slash) as [->|Hc]; inversion E; subst.
      * split; [reflexivity|]. split; [exact Ht'|]. right. exists "". reflexivity.
      * simpl. split; [reflexivity|]. split.
        -- destruct (Ascii.eqb_spec c slash); [contradiction|]. exact Ht'.
        -- left; reflexivity.
    + inversion E; subst. split; [reflexivity|]. split; [exact Ht'|].
      destruct Hh' as [|[h0 ->]]; [contradiction|].
      right. exists (String c h0). reflexivity.
Qed.

Lemma endswith_slash_cons (c : ascii) (r : string) :
  endswith_slash (String c r) =
  if String.eqb r "" then Ascii.eqb c slash else endswith_slash r.
Proof. destruct r; reflexivity. Qed.

Lemma endswith_slash_app_slash (h0 : string) :
  endswith_slash (h0 ++ String slash "") = true.
Proof.
  induction h0 as [|c r IH]; [reflexivity|].
  rewrite app_String, endswith_slash_cons.
  destruct r; simpl; [reflexivity|exact IH].
Qed.

Lemma rstrip_cons (c : ascii) (r : string) :
  rstrip_slash (String c r) =
  if String.eqb (rstrip_slash r) "" && Ascii.eqb c slash then ""
  else String c (rstrip_slash r).
Proof. reflexivity. Qed.

Lemma rstrip_spec (s : string) :
  exists m, s = rstrip_slash s ++ slashes m /\
            endswith_slash (rstrip_slash s) = false.
Proof.
  induction s as [|c r (m & Hm & He)].
  - exists 0. auto.
  - rewrite rstrip_cons.
    destruct (String.eqb_spec (rstrip_slash r) "") as [Hr|Hr];
      destruct (Ascii.eqb_spec c slash) as [Hc|Hc]; simpl andb; cbv iota.
    + exists (S m). rewrite Hr, app_Empty in Hm. rewrite app_Empty, Hm, Hc.
      auto.
    + exists m. rewrite Hr, app_Empty in Hm. rewrite Hr, app_String, app_Empty.
      split; [congruence|]. simpl.
      destruct (Ascii.eqb_spec c slash); congruence.
    + exists m. rewrite app_String. split; [congruence|].
      rewrite endswith_slash_cons.
      destruct (String.eqb_spec (rstrip_slash r) ""); congruence.
    + exists m. rewrite app_String. split; [congruence|].
      rewrite endswith_slash_cons.
      destruct (String.eqb_spec (rstrip_slash r) ""); congruence.
Qed.

Lemma rstrip_empty_all_slashes (s : string) :
  rstrip_slash s = "" -> all_slashes s = true.
Proof.
  induction s as [|c r IH]; simpl; [auto|].
  destruct (String.eqb_spec (rstrip_slash r) "") as [Hr|Hr];
    destruct (Ascii.eqb_spec c slash) as [Hc|Hc]; simpl; intros E;
    try discriminate.
  subst. simpl. apply IH, Hr.
Qed.

Lemma all_slashes_eq (s : string) :
  all_slashes s = true -> s = slashes (String.length s).
Proof.
  induction s as [|c r IH]; simpl; [auto|].
  intros H. apply andb_true_iff in H as [H1 H2].
  destruct (Ascii.eqb_spec c slash); [|discriminate]. subst.
  rewrite <- IH by exact H2. reflexivity.
Qed.

Lemma length_append' (a b : string) :
  String.length (a ++ b) = String.length a + String.length b.
Proof.
  induction a as [|x a IH]; [reflexivity|].
  rewrite app_String. simpl. rewrite IH. reflexivity.
Qed.

Lemma startswith_slash_app (a b : string) :
  a <> "" -> startswith_slash (a ++ b) = startswith_slash a.
Proof. destruct a; [contradiction|reflexivity]. Qed.

Lemma cut_last_all_slashes (s : string) :
  all_slashes s = true -> s <> "" -> cut_last s = (s, "").
Proof.
  induction s as [|c r IH]; [contradiction|]. intros H _.
  simpl in H. apply andb_true_iff in H as [Hc Hr].
  destruct (Ascii.eqb_spec c slash) as [->|]; [|discriminate].
  simpl. destruct r as [|c' r'].
  - reflexivity.
  - rewrite (IH Hr) by discriminate. reflexivity.
Qed.

Lemma psplit_all_slashes (s : string) :
  all_slashes s = true -> s <> "" -> psplit s = (s, "").
Proof.
  intros H Hne. unfold psplit. rewrite cut_last_all_slashes by assumption.
  rewrite H. simpl. rewrite andb_false_r. reflexivity.
Qed.

(** What [posixpath.split] keeps: the tail is the last component, and when
    the head is not empty the path's components are the head's (or, for an
    all-slash head, one empty component to the same effect) followed by
    empty components and the tail. *)
Lemma psplit_shape (name head tail : string) :
  psplit name = (head, tail) ->
  has_slash tail = false /\
  String.length head + String.length tail <= String.length name /\
  (head = "" -> name = tail) /\
  (head <> "" ->
   startswith_slash name = startswith_slash head /\
   exists C k, components name = (C ++ empties k ++ [tail])%list /\
     (C = components head \/ (all_slashes head = true /\ C = [""]))).
Proof.
  unfold psplit. destruct (cut_last name) as [h t] eqn:Ec.
  destruct (cut_last_spec _ _ _ Ec) as (-> & Ht & Hh).
  destruct (String.eqb_spec h "") as [Hh0|Hh0]; simpl.
  - subst h. intros E; inversion E; subst. rewrite app_Empty.
    split; [exact Ht|]. split; [simpl; lia|]. split; [auto|]. congruence.
  - destruct Hh as [|[h0 Eh0]]; [contradiction|].
    destruct (all_slashes h) eqn:Ha; simpl; intros E; inversion E; subst.
    + rewrite (length_append' _ tail). split; [exact Ht|]. split; [lia|].
      split; [congruence|]. intros _.
      split; [apply startswith_slash_app; exact Hh0|].
      pose proof (all_slashes_eq _ Ha) as Es.
      destruct (String.length (h0 ++ String slash "")) as [|j] eqn:El.
      { exfalso. apply Hh0. rewrite Es. reflexivity. }
      exists [""], j. split.
      * rewrite Es. simpl slashes. rewrite app_String.
        rewrite components_cons, components_slashes_tail by exact Ht.
        reflexivity.
      * right. split; [exact Ha|reflexivity].
    + destruct (rstrip_spec (h0 ++ String slash "")) as (m & Hm & He).
      destruct m as [|m].
      { rewrite append_empty_r in Hm. rewrite <- Hm in He.
        rewrite endswith_slash_app_slash in He. discriminate. }
      assert (Hr : rstrip_slash (h0 ++ String slash "") <> "").
      { intros Hr. apply rstrip_empty_all_slashes in Hr. congruence. }
      split; [exact Ht|].
      split.
      { rewrite (length_append' (h0 ++ String slash "") tail).
        assert (String.length (rstrip_slash (h0 ++ String slash ""))
                <= String.length (h0 ++ String slash "")); [|lia].
        rewrite Hm at 2.
        rewrite (length_append' (rstrip_slash _) (slashes _)). lia. }
      split; [congruence|]. intros _.
      remember (rstrip_slash (h0 ++ String slash "")) as R eqn:ER.
      rewrite Hm, append_assoc'.
      split; [rewrite startswith_slash_app by exact Hr; reflexivity|].
      exists (components R), m.
      simpl slashes. rewrite app_String, components_app_slash.
      rewrite components_slashes_tail by exact Ht.
      split; [reflexivity|]. left; reflexivity.
Qed.

Lemma empties_S (n : nat) : empties (S n) = "" :: empties n.
Proof. reflexivity. Qed.


Lemma empties_snoc (n : nat) : (empties n ++ [""])%list = empties (S n).
Proof.
  induction n as [|n IH]; [reflexivity|].
  change (((("" :: empties n) ++ [""])%list = "" :: empties (S n))).
  rewrite <- IH. reflexivity.
Qed.

Lemma makedirs_split_shape (name head tail : string) :
  makedirs_split name = (head, tail) -> head <> "" -> tail <> "" ->
  startswith_slash name = startswith_slash head /\
  String.length head < String.length name /\
  exists C k m,
    components name = (C ++ empties k ++ [tail] ++ empties m)%list /\
    (C = components head \/ (all_slashes head = true /\ C = [""])).
Proof.
  unfold makedirs_split. destruct (psplit name) as [h1 t1] eqn:E1.
  destruct (psplit_shape _ _ _ E1) as (Ht1 & Hl1 & He1 & Hn1).
  destruct (String.eqb_spec t1 "") as [->|Ht1ne].
  - intros E2 Hh Ht.
    destruct (String.eqb_spec h1 "") as [->|Hh1].
    { cbv in E2. inversion E2; subst. contradiction. }
    destruct (Hn1 Hh1) as (Hs1 & C1 & k1 & Ec1 & HC1).
    destruct (psplit_shape _ _ _ E2) as (Ht2 & Hl & He & Hn).
    destruct (Hn Hh) as (Hs & C & k & Ec & HC).
    destruct HC1 as [->|[Ha _]].
    2:{ rewrite psplit_all_slashes in E2 by assumption.
        inversion E2; subst. contradiction. }
    split; [congruence|]. split.
    { simpl in Hl1. destruct tail; [contradiction|]. simpl in Hl. lia. }
    exists C, k, (S k1). split; [|exact HC].
    rewrite Ec1, Ec, empties_snoc. rewrite <- !app_assoc. reflexivity.
  - intros E2 Hh Ht. inversion E2; subst.
    destruct (Hn1 Hh) as (Hs & C & k & Ec & HC).
    split; [exact Hs|]. split.
    { destruct tail; [contradiction|]. simpl in Hl1. lia. }
    exists C, k, 0. rewrite app_nil_r. split; assumption.
Qed.


(* ------------------------------------------------------------------ *)
(** * Facts about path resolution *)

Section Resolution.
Variable cwd : apath.

Lemma walk_app (fs : fsys) (p : apath) (l1 l2 : list string) :
  walk fs p (l1 ++ l2) =
  match walk fs p l1 with inl e => inl e | inr q => walk fs q l2 end.
Proof.
  revert p. induction l1 as [|c l1 IH]; intros p; simpl; [reflexivity|].
  destruct (fs !! p) as [[w|c0 m0]|]; auto.
Qed.

Lemma walk_empties_dir (fs : fsys) (p : apath) (w : bool) (k : nat) :
  fs !! p = Some (NDir w) -> walk fs p (empties k) = inr p.
Proof.
  intros H. induction k as [|k IH]; simpl; [reflexivity|].
  rewrite H. exact IH.
Qed.

Lemma walk_empties_result (fs : fsys) (p q : apath) (k : nat) :
  walk fs p (empties k) = inr q -> q = p.
Proof.
  induction k as [|k IH]; simpl; [congruence|].
  destruct (fs !! p) as [[w|c m]|]; [exact IH|discriminate|discriminate].
Qed.

Lemma walk_empties_S (fs : fsys) (p : apath) (n : nat) :
  walk fs p (empties (S n)) = walk fs p [""].
Proof.
  simpl. destruct (fs !! p) as [[w|c m]|] eqn:E; try reflexivity.
  apply (walk_empties_dir _ _ _ _ E).
Qed.

(** Walks only look at directories: a walk that succeeds still succeeds,
    to the same place, once more directories exist. *)
Lemma walk_mono (fs fs' : fsys) (p q : apath) (l : list string) :
  (forall r, dir_at fs r = true -> dir_at fs' r = true) ->
  walk fs p l = inr q -> walk fs' p l = inr q.
Proof.
  intros Hd. revert p. induction l as [|c l IH]; intros p; simpl; [auto|].
  destruct (fs !! p) as [[w|c0 m0]|] eqn:E; try discriminate.
  intros Hw. specialize (Hd p). unfold dir_at in Hd. rewrite E in Hd.
  destruct (fs' !! p) as [[w'|c' m']|]; try (specialize (Hd eq_refl); discriminate).
  apply IH, Hw.
Qed.

Lemma walk_step_dir (fs : fsys) (p q : apath) (c : string) (l : list string) :
  walk fs p (c :: l) = inr q -> exists w, fs !! p = Some (NDir w).
Proof.
  simpl. destruct (fs !! p) as [[w|c0 m0]|]; try discriminate. eauto.
Qed.

Lemma drop_empty_spec (l : list string) :
  exists j, l = (empties j ++ drop_empty l)%list /\
    (drop_empty l = [] \/ exists c l', drop_empty l = c :: l' /\ c <> "").
Proof.
  induction l as [|c l (j & Hj & Hd)]; simpl.
  - exists 0. auto.
  - destruct (String.eqb_spec c "") as [->|Hc].
    + exists (S j). split; [|exact Hd].
      rewrite Hj at 1. reflexivity.
    + exists 0. simpl. split; [reflexivity|]. right. eauto.
Qed.

Lemma strip_trailing_spec (cs body : list string) (tr : bool) :
  strip_trailing cs = (body, tr) ->
  exists j, cs = (body ++ empties j)%list /\ tr = negb (Nat.eqb j 0) /\
    (rev body = [] \/ exists last rinit, rev body = last :: rinit /\ last <> "").
Proof.
  unfold strip_trailing. intros E. inversion E; subst; clear E.
  destruct (drop_empty_spec (rev cs)) as (j & Hj & Hd).
  exists j. rewrite rev_involutive.
  assert (Hcs : cs = (rev (drop_empty (rev cs)) ++ empties j)%list).
  { rewrite <- (rev_involutive cs) at 1. rewrite Hj at 1.
    rewrite rev_app_distr. unfold empties. rewrite rev_repeat. reflexivity. }
  split; [exact Hcs|]. split.
  - rewrite Hcs at 2. rewrite length_app. unfold empties. rewrite repeat_length.
    destruct j; simpl; rewrite ?Nat.add_0_r, ?Nat.eqb_refl; [reflexivity|].
    destruct (Nat.eqb_spec (length (rev (drop_empty (rev cs))))
                (length (rev (drop_empty (rev cs))) + S j)); [lia|reflexivity].
  - exact Hd.
Qed.

Lemma walk_cons_dir (fs : fsys) (p q : apath) (l : list string) :
  walk fs p l = inr q -> l <> [] -> exists w, fs !! p = Some (NDir w).
Proof.
  destruct l as [|c l]; [contradiction|]. intros H _.
  exact (walk_step_dir _ _ _ _ _ H).
Qed.

Lemma step_last (q : apath) (last : string) :
  last <> "" ->
  (if String.eqb last "." then q
   else if String.eqb last ".." then removelast q else app q [last])
  = step q last.
Proof.
  intros H. unfold step. destruct (String.eqb_spec last ""); [contradiction|].
  reflexivity.
Qed.

(** The two shapes of a successful [create_target]. *)
Lemma create_target_cases (fs : fsys) (s : string) (t : apath) (tr : bool) :
  create_target cwd fs s = inr (t, tr) ->
  s <> "" /\ exists j, tr = negb (Nat.eqb j 0) /\
  ((components s = empties j /\ t = start cwd s) \/
   (exists init last q w,
      components s = (init ++ [last] ++ empties j)%list /\ last <> "" /\
      walk fs (start cwd s) init = inr q /\ fs !! q = Some (NDir w) /\
      t = step q last)).
Proof.
  unfold create_target. destruct (String.eqb_spec s "") as [|Hs]; [discriminate|].
  destruct (strip_trailing (components s)) as [body tr'] eqn:Es.
  destruct (strip_trailing_spec _ _ _ Es) as (j & Ecs & Htr & Hb).
  intros E. split; [exact Hs|]. exists j.
  destruct (rev body) as [|last rinit] eqn:Erb.
  - inversion E; subst. split; [reflexivity|]. left.
    apply (f_equal (@rev string)) in Erb. rewrite rev_involutive in Erb.
    subst body. split; [exact Ecs|reflexivity].
  - destruct Hb as [|(last' & rinit' & Hb1 & Hb2)]; [discriminate|].
    inversion Hb1; subst last' rinit'.
    destruct (walk fs (start cwd s) (rev rinit)) as [e|q] eqn:Ew; [discriminate|].
    destruct (fs !! q) as [[w|c m]|] eqn:Eq; try discriminate.
    assert (Et : t = step q last /\ tr = tr').
    { unfold step. destruct (String.eqb_spec last "") as [|_]; [contradiction|].
      simpl. destruct (String.eqb last "."), (String.eqb last "..");
        inversion E; auto. }
    destruct Et as [-> ->].
    split; [assumption|]. right. exists (rev rinit), last, q, w.
    apply (f_equal (@rev string)) in Erb. rewrite rev_involutive in Erb.
    subst body. simpl in Ecs. rewrite <- app_assoc in Ecs.
    repeat split; assumption.
Qed.

Lemma create_target_resolve_eq (fs : fsys) (s : string) (p t : apath)
    (n : node) (tr : bool) :
  resolve cwd fs s = inr (p, n) -> create_target cwd fs s = inr (t, tr) ->
  t = p.
Proof.
  intros Hr Hc. destruct (create_target_cases _ _ _ _ Hc) as (Hs & j & _ & Hcase).
  unfold resolve in Hr. destruct (String.eqb_spec s "") as [|_]; [contradiction|].
  destruct Hcase as [(Ec & ->)|(init & last & q & w & Ec & Hl & Hw & Hq & ->)];
    rewrite Ec in Hr.
  - destruct (walk fs (start cwd s) (empties j)) as [e|p'] eqn:Ew; [discriminate|].
    apply walk_empties_result in Ew. subst p'.
    destruct (fs !! start cwd s); inversion Hr; subst; reflexivity.
  - rewrite walk_app, Hw in Hr. simpl in Hr. rewrite Hq in Hr.
    destruct (walk fs (step q last) (empties j)) as [e|p'] eqn:Ew; [discriminate|].
    apply walk_empties_result in Ew. subst p'.
    destruct (fs !! step q last); inversion Hr; subst; reflexivity.
Qed.

(** A create target without trailing slash is what the full walk reaches. *)
Lemma create_target_walk (fs : fsys) (s : string) (t : apath) :
  create_target cwd fs s = inr (t, false) ->
  walk fs (start cwd s) (components s) = inr t.
Proof.
  intros Hc. destruct (create_target_cases _ _ _ _ Hc) as (Hs & j & Hj & Hcase).
  destruct j as [|j]; [|discriminate].
  destruct Hcase as [(Ec & _)|(init & last & q & w & Ec & Hl & Hw & Hq & ->)].
  - exfalso. exact (components_nonempty s Ec).
  - rewrite Ec, walk_app, Hw. simpl. rewrite Hq. reflexivity.
Qed.

(** A create target that is a directory is what [stat] finds. *)
Lemma create_target_dir_resolve (fs : fsys) (s : string) (t : apath)
    (tr w : bool) :
  create_target cwd fs s = inr (t, tr) -> fs !! t = Some (NDir w) ->
  resolve cwd fs s = inr (t, NDir w).
Proof.
  intros Hc Ht. destruct (create_target_cases _ _ _ _ Hc) as (Hs & j & _ & Hcase).
  unfold resolve. destruct (String.eqb_spec s "") as [|_]; [contradiction|].
  destruct Hcase as [(Ec & ->)|(init & last & q & w' & Ec & Hl & Hw & Hq & ->)];
    rewrite Ec.
  - rewrite (walk_empties_dir _ _ _ _ Ht), Ht. reflexivity.
  - rewrite walk_app, Hw. simpl. rewrite Hq.
    rewrite (walk_empties_dir _ _ _ _ Ht), Ht. reflexivity.
Qed.

Lemma start_eq (a b : string) :
  startswith_slash a = startswith_slash b -> start cwd a = start cwd b.
Proof. unfold start. intros ->. reflexivity. Qed.

(** When [name] walks somewhere, the head [makedirs] splits off is an
    existing directory. *)
Lemma makedirs_split_head_dir (fs : fsys) (name head tail : string)
    (p : apath) :
  makedirs_split name = (head, tail) -> head <> "" -> tail <> "" ->
  walk fs (start cwd name) (components name) = inr p ->
  exists q w, resolve cwd fs head = inr (q, NDir w).
Proof.
  intros Esp Hh Ht Hw.
  destruct (makedirs_split_shape _ _ _ Esp Hh Ht) as (Hs & _ & C & k & m & Ec & HC).
  rewrite Ec, walk_app in Hw.
  destruct (walk fs (start cwd name) C) as [e|q] eqn:EC; [discriminate|].
  destruct (walk_cons_dir _ _ _ _ Hw) as [w Hq].
  { destruct k; discriminate. }
  exists q, w. unfold resolve. destruct (String.eqb_spec head "") as [|_]; [contradiction|].
  rewrite <- (start_eq _ _ Hs).
  destruct HC as [<-|[Ha ->]].
  - rewrite EC, Hq. reflexivity.
  - rewrite (all_slashes_eq _ Ha), components_slashes, walk_empties_S.
    rewrite EC, Hq. reflexivity.
Qed.

End Resolution.

(* ------------------------------------------------------------------ *)
(** * Running the monad *)

Lemma bind_Ok {A B} (m : PyM A) (k : A -> PyM B) (fs fs' : fsys) (a : A) :
  m fs = (Ok a, fs') -> bind m k fs = k a fs'.
Proof. unfold bind. intros ->. reflexivity. Qed.

Lemma bind_Exc {A B} (m : PyM A) (k : A -> PyM B) (fs fs' : fsys) (e : exn) :
  m fs = (Exc e, fs') -> bind m k fs = (Exc e, fs').
Proof. unfold bind. intros ->. reflexivity. Qed.

Lemma catch_Ok {A} (m : PyM A) (h : exn -> PyM A) (fs fs' : fsys) (a : A) :
  m fs = (Ok a, fs') -> catch m h fs = (Ok a, fs').
Proof. unfold catch. intros ->. reflexivity. Qed.

Lemma catch_Exc {A} (m : PyM A) (h : exn -> PyM A) (fs fs' : fsys) (e : exn) :
  m fs = (Exc e, fs') -> catch m h fs = h e fs'.
Proof. unfold catch. intros ->. reflexivity. Qed.

Section Steps.
Variable cwd : apath.

Lemma path_exists_spec (s : string) (fs : fsys) :
  path_exists cwd s fs = (Ok (exists_b cwd fs s), fs).
Proof.
  unfold path_exists, exists_b, catch, bind, os_stat, ret.
  destruct (resolve cwd fs s); reflexivity.
Qed.

Lemma path_isdir_spec (s : string) (fs : fsys) :
  path_isdir cwd s fs = (Ok (isdir_b cwd fs s), fs).
Proof.
  unfold path_isdir, isdir_b, catch, bind, os_stat, ret.
  destruct (resolve cwd fs s) as [e|[p [w|c m]]]; reflexivity.
Qed.

Lemma os_mkdir_existing (s : string) (fs : fsys) (p : apath) (n : node) :
  resolve cwd fs s = inr (p, n) ->
  exists e, os_mkdir cwd s fs = (Exc (OSError e s), fs).
Proof.
  intros Hr. unfold os_mkdir.
  destruct (create_target cwd fs s) as [e|[t tr]] eqn:Ec; [eauto|].
  rewrite (create_target_resolve_eq _ _ _ _ _ _ _ Hr Ec).
  unfold resolve in Hr. destruct (String.eqb s ""); [discriminate|].
  destruct (walk fs (start cwd s) (components s)); [discriminate|].
  destruct (fs !! l) eqn:El; inversion Hr; subst. rewrite El. eauto.
Qed.

Lemma makedirs_fuel_S (fuel : nat) (name : string) (exist_ok : bool) :
  makedirs_fuel cwd (S fuel) name exist_ok =
  let '(head, tail) := makedirs_split name in
  let* early :=
    (if negb (String.eqb head "") && negb (String.eqb tail "") then
       let* ex := path_exists cwd head in
       if ex then ret false
       else
         let* _ := catch (makedirs_fuel cwd fuel head exist_ok)
                         (fun e => if is_FileExistsError e then ret tt
                                   else raise e) in
         ret (String.eqb tail ".")
     else ret false) in
  if early then ret tt
  else
    catch (os_mkdir cwd name)
          (fun e =>
             match e with
             | OSError _ _ =>
                 let* d := path_isdir cwd name in
                 if negb exist_ok || negb d then raise e else ret tt
             | _ => raise e
             end).
Proof. reflexivity. Qed.

(** [os.makedirs(name, exist_ok=True)] on an existing directory changes
    nothing and returns normally. *)
Lemma makedirs_existing_dir (fuel : nat) (name : string) (fs : fsys)
    (p : apath) (w : bool) :
  resolve cwd fs name = inr (p, NDir w) ->
  makedirs_fuel cwd (S fuel) name true fs = (Ok tt, fs).
Proof.
  intros Hr.
  assert (Hend : catch (os_mkdir cwd name)
          (fun e =>
             match e with
             | OSError _ _ =>
                 let* d := path_isdir cwd name in
                 if negb true || negb d then raise e else ret tt
             | _ => raise e
             end) fs = (Ok tt, fs)).
  { destruct (os_mkdir_existing _ _ _ _ Hr) as [e He].
    rewrite (catch_Exc _ _ _ _ _ He).
    erewrite bind_Ok by apply path_isdir_spec.
    unfold isdir_b. rewrite Hr. reflexivity. }
  rewrite makedirs_fuel_S.
  destruct (makedirs_split name) as [head tail] eqn:Esp.
  destruct (String.eqb_spec head "") as [Hh|Hh];
    destruct (String.eqb_spec tail "") as [Ht|Ht]; simpl negb; simpl andb;
    try (erewrite bind_Ok by reflexivity; exact Hend).
  assert (Hw : exists p', walk fs (start cwd name) (components name) = inr p').
  { unfold resolve in Hr. destruct (String.eqb name ""); [discriminate|].
    destruct (walk fs (start cwd name) (components name)); [discriminate|].
    eauto. }
  destruct Hw as [p' Hw].
  destruct (makedirs_split_head_dir _ _ _ _ _ _ Esp Hh Ht Hw) as (q & w' & Hq).
  erewrite bind_Ok.
  2:{ erewrite bind_Ok by apply path_exists_spec.
      unfold exists_b. rewrite Hq. reflexivity. }
  exact Hend.
Qed.

End Steps.

(* ------------------------------------------------------------------ *)
(** * What one [shutil.copy] does *)

Section Copy.
Variable cwd : apath.

Lemma samefile_spec (a b : string) (fs : fsys) :
  samefile cwd a b fs = (Ok (same_b cwd fs a b), fs).
Proof.
  unfold samefile, same_b, catch, bind, os_stat, ret.
  destruct (resolve cwd fs a) as [e|[p1 n1]]; [reflexivity|].
  destruct (resolve cwd fs b) as [e|[p2 n2]]; reflexivity.
Qed.

Lemma resolve_of_walk (fs : fsys) (s : string) (t : apath) (n : node) :
  s <> "" -> walk fs (start cwd s) (components s) = inr t ->
  fs !! t = Some n -> resolve cwd fs s = inr (t, n).
Proof.
  intros Hs Hw Ht. unfold resolve.
  destruct (String.eqb_spec s ""); [contradiction|]. rewrite Hw, Ht. reflexivity.
Qed.

Lemma dir_at_insert_file (fs : fsys) (t : apath) (c : string) (m : mode) :
  dir_at fs t = false ->
  forall r, dir_at fs r = dir_at (<[t := NFile c m]> fs) r.
Proof.
  intros Ht r. unfold dir_at in *.
  destruct (decide (r = t)) as [->|Hne].
  - rewrite lookup_insert_eq. destruct (fs !! t) as [[]|]; congruence.
  - rewrite lookup_insert_ne by congruence. reflexivity.
Qed.

Lemma resolve_insert_file (fs : fsys) (t : apath) (c : string) (m : mode)
    (s : string) (p : apath) (n : node) :
  dir_at fs t = false -> p <> t ->
  resolve cwd fs s = inr (p, n) ->
  resolve cwd (<[t := NFile c m]> fs) s = inr (p, n).
Proof.
  intros Ht Hp Hr. unfold resolve in *.
  destruct (String.eqb s ""); [discriminate|].
  destruct (walk fs (start cwd s) (components s)) as [e|p'] eqn:Ew; [discriminate|].
  rewrite (walk_mono fs _ _ _ _
             (fun r H => eq_trans (eq_sym (dir_at_insert_file _ _ _ _ Ht r)) H) Ew).
  destruct (fs !! p') eqn:E; inversion Hr; subst.
  rewrite lookup_insert_ne by congruence. rewrite E. reflexivity.
Qed.

Lemma resolve_created_file (fs : fsys) (t : apath) (c : string) (m : mode)
    (s : string) :
  dir_at fs t = false -> create_target cwd fs s = inr (t, false) ->
  resolve cwd (<[t := NFile c m]> fs) s = inr (t, NFile c m).
Proof.
  intros Ht Hc.
  destruct (create_target_cases _ _ _ _ _ Hc) as [Hs _].
  apply resolve_of_walk; [exact Hs| |apply lookup_insert_eq].
  apply (walk_mono fs); [|exact (create_target_walk _ _ _ _ Hc)].
  intros r H. rewrite <- (dir_at_insert_file _ _ _ _ Ht r). exact H.
Qed.

(** The handler [copyfile] puts around [open(dst, 'wb')] re-raises. *)
Lemma copyfile_handler_raises (dst : string) (e : exn) (fs : fsys) :
  exists e', ((if is_IsADirectoryError e then
                let* ex := path_exists cwd dst in
                if negb ex then raise (OSError ENOENT dst) else raise e
              else raise e) : PyM unit) fs = (Exc e', fs) /\ (e' = e \/ e' = OSError ENOENT dst).
Proof.
  destruct (is_IsADirectoryError e); [|eexists; split; [reflexivity|auto]].
  erewrite bind_Ok by apply path_exists_spec.
  destruct (exists_b cwd fs dst); simpl; eexists; split; [reflexivity|auto|reflexivity|auto].
Qed.

Lemma resolve_lookup (fs : fsys) (s : string) (p : apath) (n : node) :
  resolve cwd fs s = inr (p, n) -> fs !! p = Some n.
Proof.
  unfold resolve. destruct (String.eqb s ""); [discriminate|].
  destruct (walk fs (start cwd s) (components s)); [discriminate|].
  destruct (fs !! l) eqn:E; inversion 1; subst. exact E.
Qed.

(** [shutil.copyfile]: it fails leaving the file system as it was, naming
    [src] or [dst], or it writes the content of the readable regular file
    [src] into the entry [open(dst, 'wb')] designates, which is not a
    directory and not [src] itself. *)
Lemma copyfile_spec (src D : string) (fs : fsys) :
  (exists e, copyfile cwd src D fs = (Exc e, fs) /\
             (names_path e src \/ names_path e D)) \/
  (exists ps c m t m',
     resolve cwd fs src = inr (ps, NFile c m) /\ mode_r m = true /\
     create_target cwd fs D = inr (t, false) /\ dir_at fs t = false /\
     t <> ps /\ copyfile cwd src D fs = (Ok tt, <[t := NFile c m']> fs)).
Proof.
  unfold copyfile. erewrite bind_Ok by apply samefile_spec. cbv beta.
  destruct (same_b cwd fs src D) eqn:Esame.
  { left. eexists; split; [reflexivity|]. left. left. reflexivity. }
  destruct (resolve cwd fs src) as [e|[ps [w|c m]]] eqn:Er.
  { left. erewrite bind_Exc; [|unfold read_file; rewrite Er; reflexivity].
    eexists; split; [reflexivity|]. left. reflexivity. }
  { left. erewrite bind_Exc; [|unfold read_file; rewrite Er; reflexivity].
    eexists; split; [reflexivity|]. left. reflexivity. }
  destruct (mode_r m) eqn:Emr.
  2:{ left. erewrite bind_Exc; [|unfold read_file; rewrite Er, Emr; reflexivity].
      eexists; split; [reflexivity|]. left. reflexivity. }
  erewrite bind_Ok; [|unfold read_file; rewrite Er, Emr; reflexivity]. cbv beta.
  (* the write fails: the handler re-raises *)
  assert (Hfail : forall e0, write_file cwd D c fs = (Exc (OSError e0 D), fs) ->
    exists e, catch (write_file cwd D c)
      (fun e => if is_IsADirectoryError e then
                  let* ex := path_exists cwd D in
                  if negb ex then raise (OSError ENOENT D) else raise e
                else raise e) fs = (Exc e, fs) /\
      (names_path e src \/ names_path e D)).
  { intros e0 Hw. rewrite (catch_Exc _ _ _ _ _ Hw).
    destruct (copyfile_handler_raises D (OSError e0 D) fs) as (e' & He' & Hor).
    exists e'. split; [exact He'|]. right.
    destruct Hor as [->| ->]; reflexivity. }
  destruct (create_target cwd fs D) as [e|[t tr]] eqn:Ect.
  { left. apply (Hfail e). unfold write_file. rewrite Ect. reflexivity. }
  destruct (fs !! t) as [[w|c' m']|] eqn:Et.
  - left. apply (Hfail EISDIR). unfold write_file. rewrite Ect, Et. reflexivity.
  - destruct tr.
    { left. apply (Hfail ENOTDIR). unfold write_file. rewrite Ect, Et. reflexivity. }
    destruct (mode_w m') eqn:Emw.
    2:{ left. apply (Hfail EACCES). unfold write_file. rewrite Ect, Et, Emw.
        reflexivity. }
    right. exists ps, c, m, t, m'.
    split; [reflexivity|]. split; [exact Emr|]. split; [reflexivity|].
    split; [unfold dir_at; rewrite Et; reflexivity|].
    split.
    + intros ->. unfold same_b in Esame. rewrite Er in Esame.
      destruct (create_target_cases _ _ _ _ _ Ect) as [HD _].
      rewrite (resolve_of_walk _ _ _ _ HD (create_target_walk _ _ _ _ Ect) Et)
        in Esame.
      rewrite bool_decide_eq_true_2 in Esame by reflexivity. discriminate.
    + apply catch_Ok. unfold write_file. rewrite Ect, Et, Emw. reflexivity.
  - destruct tr.
    { left. apply (Hfail EISDIR). unfold write_file. rewrite Ect, Et. reflexivity. }
    destruct (parent_writable fs t) eqn:Epw.
    2:{ left. apply (Hfail EACCES). unfold write_file. rewrite Ect, Et, Epw.
        reflexivity. }
    right. exists ps, c, m, t, new_file_mode.
    split; [reflexivity|]. split; [exact Emr|]. split; [reflexivity|].
    split; [unfold dir_at; rewrite Et; reflexivity|].
    split.
    + intros ->. rewrite (resolve_lookup _ _ _ _ Er) in Et. discriminate.
    + apply catch_Ok. unfold write_file. rewrite Ect, Et, Epw. reflexivity.
Qed.

Lemma copy_unfold (src dst : string) (fs : fsys) :
  copy cwd src dst fs =
  bind (copyfile cwd src (copy_dst cwd fs src dst))
       (fun _ => copymode cwd src (copy_dst cwd fs src dst)) fs.
Proof. unfold copy. erewrite bind_Ok by apply path_isdir_spec. reflexivity. Qed.

(** [shutil.copy(src, dst)]: either an exception naming [src] or the
    destination, with the file system untouched, or the entry [t] that
    [open] designates for the destination (not a directory) now holds the
    content and the mode of [src]. *)
Lemma copy_spec (src dst : string) (fs : fsys) :
  (exists e, copy cwd src dst fs = (Exc e, fs) /\
             (names_path e src \/ names_path e (copy_dst cwd fs src dst))) \/
  (exists ps c m t,
     resolve cwd fs src = inr (ps, NFile c m) /\ mode_r m = true /\
     create_target cwd fs (copy_dst cwd fs src dst) = inr (t, false) /\
     dir_at fs t = false /\ t <> ps /\
     copy cwd src dst fs = (Ok tt, <[t := NFile c m]> fs)).
Proof.
  rewrite copy_unfold.
  destruct (copyfile_spec src (copy_dst cwd fs src dst) fs)
    as [(e & He & Hn)|(ps & c & m & t & m' & Hr & Hm & Hc & Hd & Hne & Hok)].
  - left. exists e. rewrite (bind_Exc _ _ _ _ _ He). auto.
  - right. exists ps, c, m, t. do 5 (split; [assumption|]).
    rewrite (bind_Ok _ _ _ _ _ Hok). unfold copymode.
    erewrite bind_Ok.
    2:{ unfold os_stat.
        rewrite (resolve_insert_file _ _ _ _ _ _ _ Hd (not_eq_sym Hne) Hr).
        reflexivity. }
    simpl. unfold os_chmod.
    rewrite (resolve_created_file _ _ _ _ _ Hd Hc).
    rewrite insert_insert_eq. reflexivity.
Qed.

End Copy.

(* ------------------------------------------------------------------ *)
(** * [join] with one name, on a well-formed file system *)

Lemma endswith_slash_split (X : string) :
  endswith_slash X = true -> exists X0, X = X0 ++ String slash "".
Proof.
  induction X as [|c r IH]; [discriminate|].
  rewrite endswith_slash_cons. destruct (String.eqb_spec r "") as [->|Hr].
  - intros Hc. apply Ascii.eqb_eq in Hc. subst c. exists "". reflexivity.
  - intros H. destruct (IH H) as [R0 ->]. exists (String c R0).
    rewrite app_String. reflexivity.
Qed.

Lemma components_empties_all_slashes (s : string) (j : nat) :
  components s = empties j -> all_slashes s = true.
Proof.
  revert j. induction s as [|c r IH]; intros j H; [reflexivity|].
  simpl in H. destruct (components r) as [|x xs] eqn:E.
  { exfalso. exact (components_nonempty r E). }
  destruct j as [|j]; [destruct (Ascii.eqb c slash); discriminate|].
  rewrite empties_S in H. simpl. destruct (Ascii.eqb c slash) eqn:Ec.
  - injection H as H. simpl. apply (IH j). rewrite <- H. reflexivity.
  - injection H as H _. destruct x; discriminate.
Qed.

Lemma all_slashes_startswith (s : string) :
  all_slashes s = true -> s <> "" -> startswith_slash s = true.
Proof.
  destruct s as [|c r]; [contradiction|]. simpl.
  intros H _. apply andb_true_iff in H. apply H.
Qed.

Lemma has_slash_startswith (b : string) :
  has_slash b = false -> startswith_slash b = false.
Proof.
  destruct b as [|c r]; [reflexivity|]. simpl.
  intros H. apply orb_false_iff in H. apply H.
Qed.

Lemma join_nonempty (X b : string) : X <> "" -> join X b <> "".
Proof.
  intros HX. unfold join. destruct (startswith_slash b) eqn:Eb.
  - destruct b; [discriminate|congruence].
  - destruct X as [|c r]; [contradiction|].
    destruct (String.eqb _ "" || _); rewrite app_String; discriminate.
Qed.

(** [join X b] for a name [b] without slash: the components of [X] (less
    a trailing empty one) followed by [b]. *)
Lemma join_components (X b : string) :
  X <> "" -> has_slash b = false ->
  exists L, components (join X b) = (L ++ [b])%list /\
    startswith_slash (join X b) = startswith_slash X /\
    (components X = (L ++ [""])%list \/ components X = L).
Proof.
  intros HX Hb. unfold join. rewrite (has_slash_startswith b Hb).
  destruct (String.eqb_spec X "") as [|_]; [contradiction|].
  destruct (endswith_slash X) eqn:Ee; simpl orb; cbv iota.
  - destruct (endswith_slash_split X Ee) as [X0 ->].
    exists (components X0).
    rewrite append_assoc', app_String, app_Empty.
    rewrite components_app_slash, (components_noslash b Hb).
    split; [reflexivity|].
    split; [destruct X0; rewrite ?app_String, ?app_Empty; reflexivity|].
    left. rewrite components_app_slash. reflexivity.
  - exists (components X).
    rewrite components_app_slash, (components_noslash b Hb).
    split; [reflexivity|]. split; [apply startswith_slash_app; exact HX|].
    right. reflexivity.
Qed.

Lemma strip_trailing_last (l : list string) (c : string) :
  c <> "" -> strip_trailing (l ++ [c])%list = ((l ++ [c])%list, false).
Proof.
  intros Hc. unfold strip_trailing. rewrite rev_unit. cbn [drop_empty].
  destruct (String.eqb_spec c "") as [|_]; [contradiction|].
  cbn [rev]. rewrite rev_involutive, Nat.eqb_refl. reflexivity.
Qed.

Lemma plain_name_spec (b : string) :
  plain_name b = true <->
  b <> "" /\ has_slash b = false /\ b <> "." /\ b <> "..".
Proof.
  unfold plain_name. rewrite !andb_true_iff, !negb_true_iff.
  rewrite !String.eqb_neq. tauto.
Qed.

Lemma step_plain (q : apath) (b : string) :
  plain_name b = true -> step q b = (q ++ [b])%list.
Proof.
  intros Hp. apply plain_name_spec in Hp as (H1 & _ & H3 & H4).
  unfold step. apply String.eqb_neq in H1, H3, H4. rewrite H1, H3, H4.
  reflexivity.
Qed.

Lemma removelast_snoc (q : apath) (b : string) :
  removelast (q ++ [b])%list = q.
Proof. apply removelast_last. Qed.

Section Joins.
Variable cwd : apath.

Lemma resolve_inv (fs : fsys) (s : string) (p : apath) (n : node) :
  resolve cwd fs s = inr (p, n) ->
  s <> "" /\ walk fs (start cwd s) (components s) = inr p /\ fs !! p = Some n.
Proof.
  unfold resolve. destruct (String.eqb_spec s "") as [|Hs]; [discriminate|].
  destruct (walk fs (start cwd s) (components s)) as [e|p']; [discriminate|].
  destruct (fs !! p') eqn:E; inversion 1; subst. auto.
Qed.

(** The walk of [join X b] reaches, before [b], the directory [X] names. *)
Lemma join_walk_prefix (fs : fsys) (X b : string) (q : apath) (w : bool) :
  resolve cwd fs X = inr (q, NDir w) -> has_slash b = false ->
  exists L, components (join X b) = (L ++ [b])%list /\
    start cwd (join X b) = start cwd X /\
    walk fs (start cwd X) L = inr q.
Proof.
  intros Hr Hb. destruct (resolve_inv _ _ _ _ Hr) as (HX & Hw & Hq).
  destruct (join_components X b HX Hb) as (L & HL & Hst & Hc).
  exists L. split; [exact HL|]. split; [apply start_eq; exact Hst|].
  destruct Hc as [Hc|Hc]; rewrite Hc in Hw; [|exact Hw].
  rewrite walk_app in Hw. destruct (walk fs (start cwd X) L) as [e|q0] eqn:E;
    [discriminate|].
  simpl in Hw. destruct (fs !! q0) as [[w0|c0 m0]|]; try discriminate.
  unfold step in Hw. simpl in Hw. congruence.
Qed.

(** A plain name joined to a directory is one new entry below it. *)
Lemma create_target_join_plain (fs : fsys) (X b : string) (q : apath)
    (w : bool) :
  resolve cwd fs X = inr (q, NDir w) -> plain_name b = true ->
  create_target cwd fs (join X b) = inr ((q ++ [b])%list, false) /\
  walk fs (start cwd (join X b)) (components (join X b)) = inr (q ++ [b])%list.
Proof.
  intros Hr Hp. pose proof Hp as Hp'.
  apply plain_name_spec in Hp' as (Hb1 & Hb2 & Hb3 & Hb4).
  destruct (join_walk_prefix fs X b q w Hr Hb2) as (L & HL & Hst & Hw).
  destruct (resolve_inv _ _ _ _ Hr) as (HX & _ & Hq).
  split.
  - unfold create_target.
    destruct (String.eqb_spec (join X b) "") as [E|_];
      [exfalso; exact (join_nonempty X b HX E)|].
    rewrite HL, (strip_trailing_last L b Hb1), rev_unit, rev_involutive.
    rewrite Hst, Hw, Hq.
    apply String.eqb_neq in Hb3, Hb4. rewrite Hb3, Hb4. reflexivity.
  - rewrite HL, Hst, walk_app, Hw. simpl. rewrite Hq, (step_plain q b Hp).
    reflexivity.
Qed.

(** Any other name without slash designates a directory, or fails. *)
Lemma create_target_join_noslash (fs : fsys) (X b : string) (q : apath)
    (w : bool) (t : apath) (tr : bool) :
  wf fs -> resolve cwd fs X = inr (q, NDir w) -> has_slash b = false ->
  create_target cwd fs (join X b) = inr (t, tr) ->
  (t = (q ++ [b])%list /\ plain_name b = true /\ tr = false) \/
  dir_at fs t = true.
Proof.
  intros [_ Hwf] Hr Hb Hc.
  destruct (join_walk_prefix fs X b q w Hr Hb) as (L & HL & Hst & Hw).
  destruct (resolve_inv _ _ _ _ Hr) as (_ & _ & Hq).
  assert (Hdq : dir_at fs q = true) by (unfold dir_at; rewrite Hq; reflexivity).
  destruct (create_target_cases _ _ _ _ _ Hc)
    as (_ & j & Htr & [(He & Ht)|(init & last & q' & w' & Hs & Hl & Hi & Hq' & Ht)]).
  - right. rewrite HL in He. destruct j as [|j]; [destruct L; discriminate|].
    rewrite <- empties_snoc in He. apply app_inj_tail in He as [He _].
    rewrite He in Hw. apply walk_empties_result in Hw.
    rewrite Ht, Hst, <- Hw. exact Hdq.
  - rewrite HL in Hs. rewrite Hst in Hi.
    destruct j as [|j].
    + rewrite app_nil_r in Hs. apply app_inj_tail in Hs as [-> <-].
      rewrite Hi in Hw. injection Hw as <-.
      unfold step in Ht.
      destruct (String.eqb_spec b "") as [|_]; [contradiction|].
      destruct (String.eqb_spec b ".") as [->|H3]; [right; subst t; exact Hdq|].
      simpl in Ht.
      destruct (String.eqb_spec b "..") as [->|H4].
      * right. subst t. destruct q' as [|x q'']; [exact Hdq|].
        destruct (Hwf _ _ Hq' ltac:(discriminate)) as [w2 E2].
        unfold dir_at. rewrite E2. reflexivity.
      * left. split; [exact Ht|]. split; [|exact Htr].
        apply plain_name_spec. repeat split; assumption.
    + rewrite <- empties_snoc, app_assoc, app_assoc in Hs.
      apply app_inj_tail in Hs as [Hs _].
      rewrite Hs, <- app_assoc, walk_app, Hi in Hw. simpl in Hw.
      rewrite Hq' in Hw. apply walk_empties_result in Hw.
      right. subst t q. exact Hdq.
Qed.

(** A creating call reaches a non-directory entry only below a
    directory. *)
Lemma create_target_new_entry (fs : fsys) (s : string) (t : apath)
    (tr : bool) :
  wf fs -> create_target cwd fs s = inr (t, tr) -> dir_at fs t = false ->
  t <> [] /\ dir_at fs (removelast t) = true.
Proof.
  intros [[w0 Hroot] Hwf] Hc Hd.
  assert (Hdr : dir_at fs [] = true) by (unfold dir_at; rewrite Hroot; reflexivity).
  destruct (create_target_cases _ _ _ _ _ Hc)
    as (Hs & j & _ & [(He & Ht)|(init & last & q & w & _ & Hl & _ & Hq & Ht)]).
  - exfalso. unfold start in Ht.
    rewrite (all_slashes_startswith s (components_empties_all_slashes s j He) Hs)
      in Ht. subst t. congruence.
  - assert (Hdq : dir_at fs q = true) by (unfold dir_at; rewrite Hq; reflexivity).
    unfold step in Ht.
    destruct (String.eqb_spec last "") as [|H1]; [contradiction|].
    destruct (String.eqb_spec last ".") as [->|H3]; [assert (t = q) as -> by (rewrite Ht; reflexivity); congruence|].
    destruct (String.eqb_spec last "..") as [->|H4].
    + exfalso. assert (t = removelast q) as -> by (rewrite Ht; reflexivity).
      destruct q as [|x q']; [simpl in Hd; congruence|].
      destruct (Hwf _ _ Hq ltac:(discriminate)) as [w2 E2].
      unfold dir_at in Hd. rewrite E2 in Hd. discriminate.
    + apply String.eqb_neq in H1, H3, H4.
      assert (t = (q ++ [last])%list) as ->
        by (rewrite Ht; rewrite ?H1, ?H3, ?H4; reflexivity).
      split; [destruct q; discriminate|].
      rewrite removelast_snoc. exact Hdq.
Qed.

Lemma wf_insert_file (fs : fsys) (s : string) (t : apath) (tr : bool)
    (c : string) (m : mode) :
  wf fs -> create_target cwd fs s = inr (t, tr) -> dir_at fs t = false ->
  wf (<[t := NFile c m]> fs).
Proof.
  intros Hwf Hc Hd.
  destruct (create_target_new_entry fs s t tr Hwf Hc Hd) as [Ht0 Hpar].
  destruct Hwf as [[w0 Hroot] Hwf]. split.
  - exists w0. rewrite lookup_insert_ne by congruence. exact Hroot.
  - intros p n Hp Hp0. unfold dir_at in Hpar.
    destruct (fs !! removelast t) as [[wp|]|] eqn:Ep; try discriminate.
    destruct (decide (t = p)) as [<-|Hne].
    + exists wp. rewrite lookup_insert_ne; [exact Ep|].
      intros E. unfold dir_at in Hd. rewrite E, Ep in Hd. discriminate.
    + rewrite lookup_insert_ne in Hp by exact Hne.
      destruct (Hwf p n Hp Hp0) as [w2 E2]. exists w2.
      rewrite lookup_insert_ne; [exact E2|].
      intros E. unfold dir_at in Hd. rewrite E, E2 in Hd. discriminate.
Qed.

End Joins.

(* ------------------------------------------------------------------ *)
(** * What the calls preserve *)

Lemma pres_ret {A : Type} (R : fsys -> fsys -> Prop) (a : A) :
  (forall fs, R fs fs) -> pres R (ret a).
Proof. intros Hr fs r fs' H. inversion H; subst. apply Hr. Qed.

Lemma pres_raise {A : Type} (R : fsys -> fsys -> Prop) (e : exn) :
  (forall fs, R fs fs) -> pres R (raise (A := A) e).
Proof. intros Hr fs r fs' H. inversion H; subst. apply Hr. Qed.

Lemma pres_bind {A B : Type} (R : fsys -> fsys -> Prop) (m : PyM A)
    (k : A -> PyM B) :
  (forall x y z, R x y -> R y z -> R x z) ->
  pres R m -> (forall a, pres R (k a)) -> pres R (bind m k).
Proof.
  intros Ht Hm Hk fs r fs'. unfold bind.
  destruct (m fs) as [[a|e] fs1] eqn:E; intros H.
  - exact (Ht _ _ _ (Hm _ _ _ E) (Hk a _ _ _ H)).
  - inversion H; subst. exact (Hm _ _ _ E).
Qed.

Lemma pres_catch {A : Type} (R : fsys -> fsys -> Prop) (m : PyM A)
    (h : exn -> PyM A) :
  (forall x y z, R x y -> R y z -> R x z) ->
  pres R m -> (forall e, pres R (h e)) -> pres R (catch m h).
Proof.
  intros Ht Hm Hh fs r fs'. unfold catch.
  destruct (m fs) as [[a|e] fs1] eqn:E; intros H.
  - inversion H; subst. exact (Hm _ _ _ E).
  - exact (Ht _ _ _ (Hm _ _ _ E) (Hh e _ _ _ H)).
Qed.

Lemma pres_pure {A : Type} (R : fsys -> fsys -> Prop) (m : PyM A) :
  (forall fs, R fs fs) -> (forall fs, snd (m fs) = fs) -> pres R m.
Proof.
  intros Hr Hm fs r fs' H. pose proof (Hm fs) as E. rewrite H in E.
  simpl in E. subst. apply Hr.
Qed.

Lemma adds_dirs_refl (fs : fsys) : adds_dirs fs fs.
Proof. split; [auto|split]; [congruence|auto]. Qed.

Lemma adds_dirs_trans (x y z : fsys) :
  adds_dirs x y -> adds_dirs y z -> adds_dirs x z.
Proof.
  intros (A1 & B1 & C1) (A2 & B2 & C2). split; [|split].
  - auto.
  - intros p n Hx Hz. destruct (y !! p) as [n'|] eqn:Ey.
    + destruct (B1 p n' Hx Ey) as [w ->].
      rewrite (A2 _ _ Ey) in Hz. injection Hz as <-. eauto.
    + exact (B2 p n Ey Hz).
  - auto.
Qed.

Lemma keeps_refl (fs : fsys) : keeps fs fs.
Proof. intros p. split; auto. Qed.

Lemma keeps_trans (x y z : fsys) : keeps x y -> keeps y z -> keeps x z.
Proof. intros H1 H2 p. destruct (H1 p), (H2 p). split; auto. Qed.

Lemma keeps_wf_refl (fs : fsys) : keeps_wf fs fs.
Proof. split; [apply keeps_refl|auto]. Qed.

Lemma keeps_wf_trans (x y z : fsys) :
  keeps_wf x y -> keeps_wf y z -> keeps_wf x z.
Proof.
  intros [K1 W1] [K2 W2]. split; [exact (keeps_trans _ _ _ K1 K2)|auto].
Qed.

Lemma adds_dirs_keeps (fs fs' : fsys) : adds_dirs fs fs' -> keeps_wf fs fs'.
Proof.
  intros (A & _ & C). split; [|exact C]. intros p. unfold dir_at, file_at.
  destruct (fs !! p) as [n|] eqn:E; [rewrite (A _ _ E)|]; split; auto; discriminate.
Qed.

Lemma keeps_insert_file (fs : fsys) (t : apath) (c : string) (m : mode) :
  dir_at fs t = false -> keeps fs (<[t := NFile c m]> fs).
Proof.
  intros Ht p. unfold dir_at, file_at in *.
  destruct (decide (p = t)) as [->|Hne].
  - rewrite lookup_insert_eq. split; [|reflexivity].
    destruct (fs !! t) as [[]|]; congruence.
  - rewrite lookup_insert_ne by congruence. split; auto.
Qed.

Section Preservation.
Variable cwd : apath.

Lemma os_mkdir_adds_dirs (s : string) : pres adds_dirs (os_mkdir cwd s).
Proof.
  intros fs r fs' H. unfold os_mkdir in H.
  destruct (create_target cwd fs s) as [e|[t tr]];
    [inversion H; subst; apply adds_dirs_refl|].
  destruct (fs !! t) as [n|] eqn:Et; [inversion H; subst; apply adds_dirs_refl|].
  unfold parent_writable in H.
  destruct (fs !! removelast t) as [[wp|]|] eqn:Ep;
    try (inversion H; subst; apply adds_dirs_refl).
  destruct wp; inversion H; subst; [|apply adds_dirs_refl].
  split; [|split].
  - intros p n Hp. rewrite lookup_insert_ne; [exact Hp|congruence].
  - intros p n Hp Hp'. destruct (decide (t = p)) as [<-|Hne].
    + rewrite lookup_insert_eq in Hp'. injection Hp' as <-. eauto.
    + rewrite lookup_insert_ne in Hp' by exact Hne. congruence.
  - intros [[w0 Hroot] Hwf]. split.
    + exists w0. rewrite lookup_insert_ne; [exact Hroot|congruence].
    + intros p n Hp Hp0. destruct (decide (t = p)) as [<-|Hne].
      * exists true. rewrite lookup_insert_ne; [exact Ep|congruence].
      * rewrite lookup_insert_ne in Hp by exact Hne.
        destruct (Hwf p n Hp Hp0) as [w2 E2]. exists w2.
        rewrite lookup_insert_ne; [exact E2|congruence].
Qed.

Lemma makedirs_adds_dirs (fuel : nat) (name : string) :
  pres adds_dirs (makedirs_fuel cwd fuel name true).
Proof.
  revert name. induction fuel as [|fuel IH]; intros name.
  { apply pres_raise, adds_dirs_refl. }
  rewrite makedirs_fuel_S. destruct (makedirs_split name) as [head tail].
  pose proof adds_dirs_refl as Rr. pose proof adds_dirs_trans as Rt.
  apply pres_bind; [exact Rt| |].
  - destruct (negb _ && negb _).
    + apply pres_bind; [exact Rt| |].
      * apply pres_pure; [exact Rr|]. intros fs. rewrite path_exists_spec. reflexivity.
      * intros [|]; [apply pres_ret, Rr|].
        apply pres_bind; [exact Rt| |intros _; apply pres_ret, Rr].
        apply pres_catch; [exact Rt|apply IH|].
        intros e. destruct (is_FileExistsError e); [apply pres_ret, Rr|apply pres_raise, Rr].
    + apply pres_ret, Rr.
  - intros [|]; [apply pres_ret, Rr|].
    apply pres_catch; [exact Rt|apply os_mkdir_adds_dirs|].
    intros [er p| | |]; try (apply pres_raise, Rr).
    apply pres_bind; [exact Rt| |].
    + apply pres_pure; [exact Rr|]. intros fs. rewrite path_isdir_spec. reflexivity.
    + intros d. destruct (negb true || negb d); [apply pres_raise, Rr|apply pres_ret, Rr].
Qed.

(** A call of [shutil.copy] that returns normally succeeds with the
    content and mode of a readable regular source written into the
    destination entry. *)
Lemma copy_ok (src dst : string) (fs : fsys) (ps t : apath) (c : string)
    (m : mode) :
  resolve cwd fs src = inr (ps, NFile c m) -> mode_r m = true ->
  isdir_b cwd fs dst = false ->
  create_target cwd fs dst = inr (t, false) -> t <> ps ->
  (fs !! t = None /\ parent_writable fs t = true) \/
  (exists c' m', fs !! t = Some (NFile c' m') /\ mode_w m' = true) ->
  copy cwd src dst fs = (Ok tt, <[t := NFile c m]> fs).
Proof.
  intros Hr Hm Hd Hc Hne Hw.
  rewrite copy_unfold. unfold copy_dst. rewrite Hd.
  assert (Hdt : dir_at fs t = false).
  { unfold dir_at. destruct Hw as [[-> _]|(c' & m' & -> & _)]; reflexivity. }
  assert (Hs : same_b cwd fs src dst = false).
  { unfold same_b. rewrite Hr.
    destruct (resolve cwd fs dst) as [e|[p n]] eqn:Er; [reflexivity|].
    pose proof (create_target_resolve_eq cwd fs dst p t n false Er Hc) as ->.
    apply bool_decide_eq_false_2. congruence. }
  assert (Hcf : exists m0, copyfile cwd src dst fs = (Ok tt, <[t := NFile c m0]> fs)).
  { unfold copyfile. erewrite bind_Ok by apply samefile_spec.
    cbv beta. rewrite Hs.
    erewrite bind_Ok; [|unfold read_file; rewrite Hr, Hm; reflexivity].
    cbv beta. unfold write_file.
    destruct Hw as [[Hn Hpw]|(c' & m' & Hn & Hmw)].
    - exists new_file_mode. apply catch_Ok. rewrite Hc, Hn, Hpw. reflexivity.
    - exists m'. apply catch_Ok. rewrite Hc, Hn, Hmw. reflexivity. }
  destruct Hcf as [m0 Hcf]. rewrite (bind_Ok _ _ _ _ _ Hcf).
  unfold copymode. erewrite bind_Ok.
  2:{ unfold os_stat.
      rewrite (resolve_insert_file cwd _ _ _ _ _ _ _ Hdt (not_eq_sym Hne) Hr).
      reflexivity. }
  simpl. unfold os_chmod.
  rewrite (resolve_created_file cwd _ _ _ _ _ Hdt Hc).
  rewrite insert_insert_eq. reflexivity.
Qed.

Lemma copy_keeps_wf (src dst : string) : pres keeps_wf (copy cwd src dst).
Proof.
  intros fs r fs' H.
  destruct (copy_spec cwd src dst fs)
    as [(e & He & _)|(ps & c & m & t & _ & _ & Hc & Hd & _ & Hok)].
  - rewrite He in H. inversion H; subst. apply keeps_wf_refl.
  - rewrite Hok in H. inversion H; subst. split.
    + apply keeps_insert_file. exact Hd.
    + intros Hwf. exact (wf_insert_file cwd _ _ _ _ _ _ Hwf Hc Hd).
Qed.

Lemma exec_step_keeps_wf (s : fs_step) : pres keeps_wf (exec_step cwd s).
Proof.
  destruct s as [name|src dst]; simpl.
  - intros fs r fs' H. apply adds_dirs_keeps.
    exact (makedirs_adds_dirs _ _ _ _ _ H).
  - apply copy_keeps_wf.
Qed.

Lemma run_steps_keeps_wf (l : list fs_step) : pres keeps_wf (run_steps cwd l).
Proof.
  induction l as [|s l IH]; simpl.
  - apply pres_ret, keeps_wf_refl.
  - apply pres_bind; [exact keeps_wf_trans|apply exec_step_keeps_wf|intros _; exact IH].
Qed.

(** Resolution survives any change that keeps directories and files. *)
Lemma resolve_keeps (fs fs' : fsys) (s : string) (p : apath) (n : node) :
  keeps fs fs' -> resolve cwd fs s = inr (p, n) ->
  exists n', resolve cwd fs' s = inr (p, n') /\
    (forall w, n = NDir w -> exists w', n' = NDir w') /\
    (forall c m, n = NFile c m -> exists c' m', n' = NFile c' m').
Proof.
  intros Hk Hr. destruct (resolve_inv cwd _ _ _ _ Hr) as (Hs & Hw & Hp).
  assert (Hw' : walk fs' (start cwd s) (components s) = inr p).
  { apply (walk_mono fs); [|exact Hw]. intros r. apply Hk. }
  destruct (Hk p) as [Kd Kf]. unfold dir_at, file_at in Kd, Kf.
  rewrite Hp in Kd, Kf. destruct n as [w|c m].
  - specialize (Kd eq_refl). destruct (fs' !! p) as [[w'|]|] eqn:E'; try discriminate.
    exists (NDir w'). split; [exact (resolve_of_walk cwd _ _ _ _ Hs Hw' E')|].
    split; [eauto|discriminate].
  - specialize (Kf eq_refl). destruct (fs' !! p) as [[|c' m']|] eqn:E'; try discriminate.
    exists (NFile c' m'). split; [exact (resolve_of_walk cwd _ _ _ _ Hs Hw' E')|].
    split; [discriminate|eauto].
Qed.

End Preservation.

(* ------------------------------------------------------------------ *)
(** * The script as a list of file-system steps *)

Section Script.
Variable cwd : apath.

Lemma for_each_run (l : list string) (body : string -> PyM unit)
    (g : string -> fs_step) (fs : fsys) :
  (forall f fs', body f fs' = exec_step cwd (g f) fs') ->
  for_each l body fs = run_steps cwd (map g l) fs.
Proof.
  intros Hb. revert fs. induction l as [|f l IH]; intros fs; [reflexivity|].
  simpl. unfold bind. rewrite Hb.
  destruct (exec_step cwd (g f) fs) as [[[]|e] fs']; [apply IH|reflexivity].
Qed.

Lemma for_each_copies (a1 a2 : string) (argv : list string) (l : list string)
    (fs : fsys) :
  nth_error argv 1 = Some a1 -> nth_error argv 2 = Some a2 ->
  for_each l (fun f =>
       let* a1 := argv_get argv 1 in
       let* a2 := argv_get argv 2 in
       copy cwd (join a1 f) (join a2 f)) fs =
  run_steps cwd (map (fun f => SCopy (join a1 f) (join a2 f)) l) fs.
Proof.
  intros H1 H2. apply for_each_run. intros f fs'.
  unfold argv_get. rewrite H1, H2. unfold bind, ret. simpl.
  destruct (copy cwd (join a1 f) (join a2 f) fs') as [[[]|e] fs'']; reflexivity.
Qed.

Lemma install_bindist_steps (a0 a1 a2 a3 a4 : string) (extras : list string)
    (fs : fsys) :
  install_bindist cwd (a0 :: a1 :: a2 :: a3 :: a4 :: extras) fs =
  run_steps cwd (install_steps a1 a2 a3 a4 extras) fs.
Proof.
  unfold install_bindist, install_steps. cbn [run_steps exec_step].
  unfold argv_get. simpl nth_error. cbv iota.
  unfold bind, ret.
  destruct (makedirs cwd a2 true fs) as [[[]|e] fs1]; [|reflexivity].
  destruct (copy cwd a3 (join a2 a4) fs1) as [[[]|e] fs2]; [|reflexivity].
  apply (for_each_copies a1 a2 (a0 :: a1 :: a2 :: a3 :: a4 :: extras));
    reflexivity.
Qed.

End Script.

(* ------------------------------------------------------------------ *)
(** * Runs of steps *)

Section Runs.
Variable cwd : apath.

Lemma run_steps_app (l1 l2 : list fs_step) (fs : fsys) :
  run_steps cwd (l1 ++ l2)%list fs =
  bind (run_steps cwd l1) (fun _ => run_steps cwd l2) fs.
Proof.
  revert fs. induction l1 as [|s l1 IH]; intros fs; simpl.
  - unfold bind, ret. reflexivity.
  - unfold bind. destruct (exec_step cwd s fs) as [[[]|e] fs1]; [|reflexivity].
    specialize (IH fs1). unfold bind in IH. exact IH.
Qed.



(** A step that raises in every state a run can reach makes the whole run
    raise. *)
Lemma run_steps_fail_if (l1 l2 : list fs_step) (s : fs_step) (fs : fsys) :
  (forall fsk, keeps fs fsk -> exists e fs', exec_step cwd s fsk = (Exc e, fs')) ->
  exists e fs', run_steps cwd (l1 ++ s :: l2)%list fs = (Exc e, fs').
Proof.
  intros Hs. rewrite run_steps_app.
  destruct (run_steps cwd l1 fs) as [[[]|e] fsk] eqn:E.
  - destruct (Hs fsk (proj1 (run_steps_keeps_wf cwd l1 _ _ _ E)))
      as (e & fs' & He).
    exists e, fs'. rewrite (bind_Ok _ _ _ _ _ E). simpl.
    exact (bind_Exc _ _ _ _ _ He).
  - exists e, fsk. exact (bind_Exc _ _ _ _ _ E).
Qed.



(** [shutil.copy] from a source that does not exist fails on the source
    and changes nothing. *)
Lemma copy_missing_src (src dst : string) (fs : fsys) (er : errno) :
  resolve cwd fs src = inl er ->
  copy cwd src dst fs = (Exc (OSError er src), fs).
Proof.
  intros Hr. rewrite copy_unfold. apply bind_Exc. unfold copyfile.
  erewrite bind_Ok by apply samefile_spec.
  assert (Hs : same_b cwd fs src (copy_dst cwd fs src dst) = false)
    by (unfold same_b; rewrite Hr; reflexivity).
  cbv beta. rewrite Hs. apply bind_Exc. unfold read_file. rewrite Hr. reflexivity.
Qed.

(** The entry a regular file resolves to is the entry [open] creates or
    truncates for the same string. *)
Lemma create_target_of_resolve_file (fs : fsys) (s : string) (t : apath)
    (c : string) (m : mode) :
  resolve cwd fs s = inr (t, NFile c m) -> create_target cwd fs s = inr (t, false).
Proof.
  intros Hr. destruct (resolve_inv cwd _ _ _ _ Hr) as (Hs & Hw & Ht).
  destruct (components s) as [|x xs] eqn:Ec using rev_ind;
    [exfalso; exact (components_nonempty s Ec)|].
  clear IHxs. rename x into last. rename xs into init.
  rewrite walk_app in Hw.
  destruct (walk fs (start cwd s) init) as [e|q] eqn:Wi; [discriminate|].
  simpl in Hw. destruct (fs !! q) as [[w|c0 m0]|] eqn:Eq; try discriminate.
  injection Hw as Hw.
  assert (Hl : last <> "").
  { intros ->. unfold step in Hw. simpl in Hw. subst q. congruence. }
  unfold create_target. destruct (String.eqb_spec s "") as [|_]; [contradiction|].
  rewrite Ec, (strip_trailing_last init last Hl), rev_unit, rev_involutive, Wi, Eq.
  rewrite <- Hw. unfold step.
  destruct (String.eqb_spec last "") as [|_]; [contradiction|].
  destruct (String.eqb last "."), (String.eqb last ".."); reflexivity.
Qed.

(** A copy onto the source itself never succeeds. *)
Lemma copy_same_fails (src dst : string) (fs : fsys) (p : apath)
    (n n' : node) :
  resolve cwd fs src = inr (p, n) -> resolve cwd fs dst = inr (p, n') ->
  exists e, copy cwd src dst fs = (Exc e, fs).
Proof.
  intros Hs Hd.
  destruct (copy_spec cwd src dst fs)
    as [(e & He & _)|(ps & c & m & t & Hr & _ & Hc & Hdt & Hne & _)];
    [eauto|exfalso].
  rewrite Hs in Hr. injection Hr as <- ->.
  pose proof (resolve_lookup cwd _ _ _ _ Hs) as Hp.
  pose proof (resolve_lookup cwd _ _ _ _ Hd) as Hp'.
  rewrite Hp in Hp'. injection Hp' as <-.
  unfold copy_dst, isdir_b in Hc. rewrite Hd in Hc.
  apply Hne. exact (create_target_resolve_eq cwd _ _ _ _ _ _ Hd Hc).
Qed.

End Runs.

(* ------------------------------------------------------------------ *)
(** * Entries a copy into a directory leaves alone *)

Lemma wf_b_wf (fs : fsys) : wf_b fs = true -> wf fs.
Proof.
  unfold wf_b. intros H. apply andb_true_iff in H as [H1 H2].
  apply bool_decide_eq_true_1 in H2. split.
  - unfold dir_at in H1. destruct (fs !! []) as [[w|]|]; try discriminate. eauto.
  - intros p n Hp Hne. destruct (H2 p n Hp) as [|Hd]; [contradiction|].
    unfold dir_at in Hd. destruct (fs !! removelast p) as [[w|]|]; try discriminate.
    eauto.
Qed.

Lemma basename_noslash (s : string) : has_slash (basename s) = false.
Proof.
  unfold basename. destruct (cut_last s) as [h t] eqn:E.
  exact (proj1 (proj2 (cut_last_spec _ _ _ E))).
Qed.

Section Frame.
Variable cwd : apath.

(** [shutil.copy(src, join(X, n))], [X] a directory [q] and [n] a plain
    name, writes at most [q/n] or an entry below it. *)
Lemma copy_frame (fs fs' : fsys) (X n src g : string) (q : apath) (w : bool)
    (r : res unit) :
  wf fs -> resolve cwd fs X = inr (q, NDir w) -> plain_name n = true -> g <> n ->
  copy cwd src (join X n) fs = (r, fs') -> fs' !! (q ++ [g])%list = fs !! (q ++ [g])%list.
Proof.
  intros Hwf Hr Hp Hg H.
  destruct (copy_spec cwd src (join X n) fs)
    as [(e & He & _)|(ps & c & m & t & _ & _ & Hc & Hd & _ & Hok)].
  - rewrite He in H. injection H as _ <-. reflexivity.
  - rewrite Hok in H. injection H as _ <-.
    assert (Ht : t <> (q ++ [g])%list).
    { unfold copy_dst in Hc. destruct (isdir_b cwd fs (join X n)) eqn:Eid.
      - unfold isdir_b in Eid.
        destruct (resolve cwd fs (join X n)) as [|[q' [w'|]]] eqn:Er; try discriminate.
        destruct (create_target_join_plain cwd fs X n q w Hr Hp) as [_ Hwalk].
        destruct (resolve_inv cwd _ _ _ _ Er) as (_ & Hw' & _).
        assert (q' = (q ++ [n])%list) by congruence. subst q'.
        destruct (create_target_join_noslash cwd fs (join X n) (basename src)
                    (q ++ [n])%list w' t false Hwf Er (basename_noslash src) Hc)
          as [(-> & _ & _)|Hdt]; [|congruence].
        intros E. apply (f_equal (@length string)) in E.
        rewrite !length_app in E. simpl in E. lia.
      - apply plain_name_spec in Hp as Hp'.
        destruct (create_target_join_noslash cwd fs X n q w t false Hwf Hr
                    (proj1 (proj2 Hp')) Hc)
          as [(-> & _ & _)|Hdt]; [|congruence].
        intros E. apply app_inj_tail in E as [_ E]. congruence. }
    rewrite lookup_insert_ne by congruence. reflexivity.
Qed.

(** A run of such copies into the directory [dest] leaves [dest/g] alone
    when no copy is to [g]. *)
Lemma run_copies_frame (dest g : string) (pd : apath) (l : list fs_step) :
  Forall (fun s => exists src n, s = SCopy src (join dest n) /\
                                 plain_name n = true /\ g <> n) l ->
  forall fs w r fs', wf fs -> resolve cwd fs dest = inr (pd, NDir w) ->
  run_steps cwd l fs = (r, fs') -> fs' !! (pd ++ [g])%list = fs !! (pd ++ [g])%list.
Proof.
  induction 1 as [|s l (src & n & -> & Hp & Hg) Hl IH];
    intros fs w r fs' Hwf Hr H.
  - simpl in H. injection H as _ <-. reflexivity.
  - cbn [run_steps exec_step] in H. unfold bind in H.
    destruct (copy cwd src (join dest n) fs) as [[[]|e] fs1] eqn:E.
    + pose proof (copy_frame _ _ _ _ _ _ _ _ _ Hwf Hr Hp Hg E) as F.
      destruct (copy_keeps_wf cwd _ _ _ _ _ E) as [Hk Hwf'].
      destruct (resolve_keeps cwd _ _ _ _ _ Hk Hr) as (n' & Hr' & Hdir & _).
      destruct (Hdir w eq_refl) as [w' ->].
      rewrite <- F. exact (IH fs1 w' r fs' (Hwf' Hwf) Hr' H).
    + injection H as _ <-. exact (copy_frame _ _ _ _ _ _ _ _ _ Hwf Hr Hp Hg E).
Qed.

End Frame.

(* ------------------------------------------------------------------ *)
(** * Copies into a writable directory that all succeed *)

Section Install.
Variable cwd : apath.

Lemma isdir_b_join_plain (fs : fsys) (X n : string) (q : apath) (w : bool) :
  resolve cwd fs X = inr (q, NDir w) -> plain_name n = true ->
  dir_at fs (q ++ [n])%list = false -> isdir_b cwd fs (join X n) = false.
Proof.
  intros Hr Hp Hd. destruct (create_target_join_plain cwd fs X n q w Hr Hp) as [_ Hw].
  destruct (resolve_inv cwd _ _ _ _ Hr) as (HX & _).
  unfold isdir_b, resolve.
  destruct (String.eqb_spec (join X n) "") as [E|_];
    [exfalso; exact (join_nonempty X n HX E)|].
  rewrite Hw. unfold dir_at in Hd.
  destruct (fs !! (q ++ [n])%list) as [[]|]; try discriminate; reflexivity.
Qed.

(** [os.makedirs] keeps what [stat] finds. *)
Lemma resolve_adds_dirs (fs fs1 : fsys) (s : string) (p : apath) (n : node) :
  adds_dirs fs fs1 -> resolve cwd fs s = inr (p, n) -> resolve cwd fs1 s = inr (p, n).
Proof.
  intros Had Hr. destruct (resolve_keeps cwd _ _ _ _ _ (proj1 (adds_dirs_keeps _ _ Had)) Hr)
    as (n' & Hr' & _).
  pose proof (proj1 Had p n (resolve_lookup cwd _ _ _ _ Hr)) as E.
  rewrite (resolve_lookup cwd _ _ _ _ Hr') in E. injection E as ->. exact Hr'.
Qed.

Lemma snoc_neq (pd : apath) (x : string) : pd <> (pd ++ [x])%list.
Proof.
  intros E. apply (f_equal (@length string)) in E. rewrite length_app in E.
  simpl in E. lia.
Qed.

(** Copies [src] to [join(dest, n)] for the pairs [(src, n)] of [l], into
    the writable directory [pd] that [dest] names, with distinct plain
    names, readable regular sources outside the written entries, and
    destinations that are absent or writable regular files: they all
    succeed, [pd/n] holds the content and mode of its source, and no other
    entry changes. *)
Lemma copies_ok (dest : string) (pd : apath) (l : list (string * string)) :
  forall fs,
  resolve cwd fs dest = inr (pd, NDir true) ->
  NoDup (map snd l) ->
  (forall src n, In (src, n) l -> plain_name n = true /\
     (exists ps c m, resolve cwd fs src = inr (ps, NFile c m) /\ mode_r m = true /\
        forall n', In n' (map snd l) -> ps <> (pd ++ [n'])%list) /\
     (fs !! (pd ++ [n])%list = None \/
      exists c m, fs !! (pd ++ [n])%list = Some (NFile c m) /\ mode_w m = true)) ->
  exists fs',
    run_steps cwd (map (fun sn => SCopy (fst sn) (join dest (snd sn))) l) fs = (Ok tt, fs') /\
    (forall src n, In (src, n) l -> exists ps c m,
       resolve cwd fs src = inr (ps, NFile c m) /\ fs' !! (pd ++ [n])%list = Some (NFile c m)) /\
    (forall p, (forall n, In n (map snd l) -> p <> (pd ++ [n])%list) -> fs' !! p = fs !! p).
Proof.
  induction l as [|[src n] l IH]; intros fs Hr Hnd Hl.
  { exists fs. split; [reflexivity|]. split; [intros ? ? []|]. intros; reflexivity. }
  simpl in Hnd. inversion Hnd as [|? ? Hn Hnd']; subst.
  destruct (Hl src n (or_introl eq_refl)) as (Hp & (ps & c & m & Hs & Hm & Hps) & Hdst).
  destruct (create_target_join_plain cwd fs dest n pd true Hr Hp) as [Hc _].
  assert (Hd : dir_at fs (pd ++ [n])%list = false).
  { unfold dir_at. destruct Hdst as [->|(c' & m' & -> & _)]; reflexivity. }
  pose proof (resolve_lookup cwd _ _ _ _ Hr) as Hpd.
  assert (Hne : (pd ++ [n])%list <> ps).
  { intros E. apply (Hps n); [left; reflexivity|symmetry; exact E]. }
  assert (Hcopy : copy cwd src (join dest n) fs =
                  (Ok tt, <[(pd ++ [n])%list := NFile c m]> fs)).
  { apply (copy_ok cwd src (join dest n) fs ps (pd ++ [n])%list c m Hs Hm).
    - exact (isdir_b_join_plain fs dest n pd true Hr Hp Hd).
    - exact Hc.
    - exact Hne.
    - destruct Hdst as [Hnone|Hfile]; [left|right; exact Hfile].
      split; [exact Hnone|]. unfold parent_writable.
      rewrite removelast_snoc, Hpd. reflexivity. }
  set (fs1 := <[(pd ++ [n])%list := NFile c m]> fs).
  assert (Hrs : forall s p nd, p <> (pd ++ [n])%list ->
            resolve cwd fs s = inr (p, nd) -> resolve cwd fs1 s = inr (p, nd)).
  { intros s0 p nd Hp' Hr0. exact (resolve_insert_file cwd fs _ c m s0 p nd Hd Hp' Hr0). }
  destruct (IH fs1) as (fs' & Hrun & Hval & Hfr).
  - apply Hrs; [apply snoc_neq|exact Hr].
  - exact Hnd'.
  - intros src' n' Hin.
    destruct (Hl src' n' (or_intror Hin))
      as (Hp' & (ps' & c' & m' & Hs' & Hm' & Hps') & Hdst').
    assert (Hnn : n' <> n).
    { intros ->. apply Hn, list_elem_of_In, in_map_iff. exists (src', n). auto. }
    split; [exact Hp'|]. split.
    + exists ps', c', m'. split.
      * apply Hrs; [|exact Hs']. apply (Hps' n). left. reflexivity.
      * split; [exact Hm'|]. intros n'' Hn''. apply Hps'. right. exact Hn''.
    + assert (E : fs1 !! (pd ++ [n'])%list = fs !! (pd ++ [n'])%list).
      { unfold fs1. rewrite lookup_insert_ne; [reflexivity|].
        intros E. apply app_inj_tail in E as [_ E]. congruence. }
      rewrite E. exact Hdst'.
  - exists fs'. split.
    { cbn [map run_steps exec_step fst snd]. rewrite (bind_Ok _ _ _ _ _ Hcopy).
      exact Hrun. }
    split.
    + intros src' n' [E|Hin].
      * injection E as <- <-. exists ps, c, m. split; [exact Hs|].
        rewrite Hfr; [unfold fs1; apply lookup_insert_eq|].
        intros n'' Hn'' E. apply app_inj_tail in E as [_ <-].
        exact (Hn (proj2 (list_elem_of_In _ _) Hn'')).
      * destruct (Hval src' n' Hin) as (ps' & c' & m' & Hs' & Hv).
        destruct (Hl src' n' (or_intror Hin)) as (_ & (ps2 & c2 & m2 & Hs2 & _ & Hps2) & _).
        rewrite (Hrs _ _ _ (Hps2 n (or_introl eq_refl)) Hs2) in Hs'.
        injection Hs' as E1 E2 E3. subst ps2 c2 m2.
        exists ps', c', m'. split; [exact Hs2|exact Hv].
    + intros p Hp0. rewrite Hfr.
      * unfold fs1. apply lookup_insert_ne. intros E.
        exact (Hp0 n (or_introl eq_refl) (eq_sym E)).
      * intros n0 Hn0. apply Hp0. right. exact Hn0.
Qed.

End Install.

(* ------------------------------------------------------------------ *)
(** * Running the copies again from their own result *)

Section Rerun.
Variable cwd : apath.

Lemma walk_same_dirs (X Y : fsys) (c q : apath) (l : list string) :
  (forall p, dir_at Y p = dir_at X p) ->
  walk Y c l = inr q <-> walk X c l = inr q.
Proof.
  intros Hd. split; apply walk_mono; intros r; rewrite Hd; auto.
Qed.

Lemma isdir_b_same_dirs (X Y : fsys) (s : string) :
  (forall p, dir_at Y p = dir_at X p) -> isdir_b cwd Y s = isdir_b cwd X s.
Proof.
  intros Hd. unfold isdir_b, resolve. destruct (String.eqb s ""); [reflexivity|].
  destruct (walk X (start cwd s) (components s)) as [e|p] eqn:EX.
  - destruct (walk Y (start cwd s) (components s)) as [e'|p'] eqn:EY; [reflexivity|].
    apply (walk_same_dirs X Y _ _ _ Hd) in EY. congruence.
  - rewrite (proj2 (walk_same_dirs X Y _ _ _ Hd) EX).
    specialize (Hd p). unfold dir_at in Hd.
    destruct (Y !! p) as [[]|], (X !! p) as [[]|]; simpl in Hd;
      try discriminate; reflexivity.
Qed.

Lemma create_target_same_dirs (X Y : fsys) (s : string) (r : apath * bool) :
  (forall p, dir_at Y p = dir_at X p) ->
  create_target cwd Y s = inr r -> create_target cwd X s = inr r.
Proof.
  intros Hd H. unfold create_target in *. destruct (String.eqb s ""); [discriminate|].
  destruct (strip_trailing (components s)) as [body tr].
  destruct (rev body) as [|last rinit]; [exact H|].
  destruct (walk Y (start cwd s) (rev rinit)) as [e|p] eqn:EY; [discriminate|].
  apply (walk_same_dirs X Y _ _ _ Hd) in EY. rewrite EY.
  specialize (Hd p). unfold dir_at in Hd.
  destruct (Y !! p) as [[w|c m]|]; try discriminate.
  destruct (X !! p) as [[w'|c' m']|]; simpl in Hd; try discriminate.
  exact H.
Qed.

(** The entry a copy to [join(X, n)] writes is [q/n] or below it. *)
Lemma copy_dst_target (Y : fsys) (X n src : string) (q t : apath) (w : bool) :
  wf Y -> resolve cwd Y X = inr (q, NDir w) -> plain_name n = true ->
  create_target cwd Y (copy_dst cwd Y src (join X n)) = inr (t, false) ->
  dir_at Y t = false -> exists rest, t = (q ++ n :: rest)%list.
Proof.
  intros Hwf Hr Hp Hc Hd. unfold copy_dst in Hc.
  destruct (isdir_b cwd Y (join X n)) eqn:Eid.
  - unfold isdir_b in Eid.
    destruct (resolve cwd Y (join X n)) as [|[q' [w'|]]] eqn:Er; try discriminate.
    destruct (create_target_join_plain cwd Y X n q w Hr Hp) as [_ Hwalk].
    destruct (resolve_inv cwd _ _ _ _ Er) as (_ & Hw' & _).
    assert (q' = (q ++ [n])%list) by congruence. subst q'.
    destruct (create_target_join_noslash cwd Y (join X n) (basename src)
                (q ++ [n])%list w' t false Hwf Er (basename_noslash src) Hc)
      as [(-> & _ & _)|Hdt]; [|congruence].
    exists [basename src]. rewrite <- app_assoc. reflexivity.
  - apply plain_name_spec in Hp as Hp'.
    destruct (create_target_join_noslash cwd Y X n q w t false Hwf Hr
                (proj1 (proj2 Hp')) Hc)
      as [(-> & _ & _)|Hdt]; [|congruence].
    exists []. reflexivity.
Qed.

(** A copy that succeeded, run again on a file system with the same
    directories, the same source entry and the copied entry in place,
    fails or changes nothing. *)
Lemma recopy (X F : fsys) (src dst : string) (ps t : apath) (c : string) (m : mode) :
  resolve cwd X src = inr (ps, NFile c m) ->
  create_target cwd X (copy_dst cwd X src dst) = inr (t, false) ->
  (forall p, dir_at F p = dir_at X p) -> F !! ps = X !! ps ->
  F !! t = Some (NFile c m) ->
  (exists e, copy cwd src dst F = (Exc e, F)) \/ copy cwd src dst F = (Ok tt, F).
Proof.
  intros Hr Hc Hd Hps Ht.
  destruct (copy_spec cwd src dst F)
    as [(e & He & _)|(ps' & c' & m' & t' & Hr' & _ & Hc' & _ & _ & Hok)];
    [left; eauto|right].
  rewrite Hok.
  destruct (resolve_inv cwd _ _ _ _ Hr) as (_ & Hw & Hl).
  destruct (resolve_inv cwd _ _ _ _ Hr') as (_ & Hw' & Hl').
  apply (walk_same_dirs X F _ _ _ Hd) in Hw'. rewrite Hw in Hw'.
  injection Hw' as E. subst ps'.
  rewrite Hps, Hl in Hl'. injection Hl' as <- <-.
  unfold copy_dst in Hc, Hc'. rewrite (isdir_b_same_dirs X F _ Hd) in Hc'.
  apply (create_target_same_dirs X F _ _ Hd) in Hc'. rewrite Hc in Hc'.
  injection Hc' as <-. rewrite (insert_id F t _ Ht). reflexivity.
Qed.

Lemma prefix_neq (pd rest rest' : apath) (n n' : string) :
  n <> n' -> (pd ++ n :: rest)%list <> (pd ++ n' :: rest')%list.
Proof. intros Hn E. apply app_inv_head in E. injection E as E _. exact (Hn E). Qed.

Lemma prefix_neq_pd (pd rest : apath) (n : string) : pd <> (pd ++ n :: rest)%list.
Proof.
  intros E. apply (f_equal (@length string)) in E. rewrite length_app in E.
  simpl in E. lia.
Qed.

(** A run of copies to [join(dest, n)] changes no directory and no entry
    outside the [pd/n]. *)
Lemma run_copies_write (dest : string) (pd : apath) (l : list (string * string)) :
  forall X w r F, wf X -> resolve cwd X dest = inr (pd, NDir w) ->
  (forall src n, In (src, n) l -> plain_name n = true) ->
  run_steps cwd (map (fun sn => SCopy (fst sn) (join dest (snd sn))) l) X = (r, F) ->
  (forall p, dir_at F p = dir_at X p) /\
  (forall p, (forall n rest, In n (map snd l) -> p <> (pd ++ n :: rest)%list) ->
             F !! p = X !! p).
Proof.
  induction l as [|[src n] l IH]; intros X w r F Hwf Hr Hp H.
  { simpl in H. injection H as _ <-. split; reflexivity. }
  cbn [map run_steps exec_step fst snd] in H. unfold bind in H.
  destruct (copy cwd src (join dest n) X) as [[[]|e] X1] eqn:E.
  - destruct (copy_spec cwd src (join dest n) X)
      as [(e0 & He & _)|(ps & c & m & t & Hrs & _ & Hc & Hd & Hne & Hok)];
      [rewrite He in E; discriminate|].
    rewrite Hok in E. injection E as <-.
    destruct (copy_dst_target X dest n src pd t w Hwf Hr
                (Hp src n (or_introl eq_refl)) Hc Hd) as [rest ->].
    destruct (IH _ w r F (wf_insert_file cwd _ _ _ _ c m Hwf Hc Hd)
                (resolve_insert_file cwd _ _ _ _ _ _ _ Hd (prefix_neq_pd pd rest n) Hr)
                (fun s n' Hin => Hp s n' (or_intror Hin)) H) as [Hd1 Hf1].
    split.
    + intros p. rewrite Hd1. symmetry. apply dir_at_insert_file. exact Hd.
    + intros p Hp0. rewrite Hf1.
      * apply lookup_insert_ne. intros E. apply (Hp0 n rest); [left; reflexivity|].
        symmetry. exact E.
      * intros n' rest' Hn'. apply Hp0. right. exact Hn'.
  - destruct (copy_spec cwd src (join dest n) X)
      as [(e0 & He & _)|(ps & c & m & t & _ & _ & _ & _ & _ & Hok)];
      [|rewrite Hok in E; discriminate].
    rewrite He in E. injection E as _ <-. injection H as _ <-. split; reflexivity.
Qed.

(** Running the same copies again from the file system a run left
    changes nothing, when the names are distinct and plain and no source
    lies at or below a [pd/n]. *)
Lemma rerun_copies (dest : string) (pd : apath) (l : list (string * string)) :
  forall X w r F, wf X -> resolve cwd X dest = inr (pd, NDir w) ->
  NoDup (map snd l) ->
  (forall src n, In (src, n) l -> plain_name n = true) ->
  (forall src n p, In (src, n) l -> walk X (start cwd src) (components src) = inr p ->
     forall n' rest, In n' (map snd l) -> p <> (pd ++ n' :: rest)%list) ->
  run_steps cwd (map (fun sn => SCopy (fst sn) (join dest (snd sn))) l) X = (r, F) ->
  exists r', run_steps cwd (map (fun sn => SCopy (fst sn) (join dest (snd sn))) l) F =
             (r', F).
Proof.
  induction l as [|[src n] l IH]; intros X w r F Hwf Hr Hnd Hp Hsrc H.
  { simpl in H. injection H as _ <-. exists (Ok tt). reflexivity. }
  simpl in Hnd. inversion Hnd as [|? ? Hn Hnd']; subst.
  assert (Hpl : forall s n', In (s, n') l -> plain_name n' = true)
    by (intros s n' Hin; exact (Hp s n' (or_intror Hin))).
  cbn [map run_steps exec_step fst snd] in H. unfold bind in H.
  destruct (copy cwd src (join dest n) X) as [[[]|e] X1] eqn:E.
  - destruct (copy_spec cwd src (join dest n) X)
      as [(e0 & He & _)|(ps & c & m & t & Hrs & _ & Hc & Hd & Hne & Hok)];
      [rewrite He in E; discriminate|].
    rewrite Hok in E. injection E as <-.
    destruct (copy_dst_target X dest n src pd t w Hwf Hr
                (Hp src n (or_introl eq_refl)) Hc Hd) as [rest ->].
    set (X1 := <[(pd ++ n :: rest)%list := NFile c m]> X) in H.
    assert (HdX : forall p, dir_at X1 p = dir_at X p)
      by (intros p; symmetry; apply dir_at_insert_file; exact Hd).
    pose proof (wf_insert_file cwd _ _ _ _ c m Hwf Hc Hd) as Hwf1.
    pose proof (resolve_insert_file cwd _ _ c m _ _ _ Hd (prefix_neq_pd pd rest n) Hr)
      as Hr1.
    destruct (IH X1 w r F Hwf1 Hr1 Hnd' Hpl) as [r' Hr'].
    { intros s n' p Hin Hw n'' rest' Hn''. apply (Hsrc s n' p (or_intror Hin)).
      - apply (walk_same_dirs X X1 _ _ _ HdX). exact Hw.
      - right. exact Hn''. }
    { exact H. }
    destruct (run_copies_write dest pd l X1 w r F Hwf1 Hr1 Hpl H) as [Hd1 Hf1].
    destruct (resolve_inv cwd _ _ _ _ Hrs) as (_ & Hws & _).
    destruct (recopy X F src (join dest n) ps (pd ++ n :: rest)%list c m Hrs Hc)
      as [[e' He']|Hok'].
    + intros p. rewrite Hd1. apply HdX.
    + rewrite Hf1.
      * unfold X1. apply lookup_insert_ne. exact Hne.
      * intros n' rest' Hn'. exact (Hsrc src n ps (or_introl eq_refl) Hws n' rest'
                                       (or_intror Hn')).
    + rewrite Hf1.
      * unfold X1. apply lookup_insert_eq.
      * intros n' rest' Hn'. apply prefix_neq. intros ->.
        exact (Hn (proj2 (list_elem_of_In _ _) Hn')).
    + exists (Exc e'). cbn [map run_steps exec_step fst snd]. unfold bind.
      rewrite He'. reflexivity.
    + exists r'. cbn [map run_steps exec_step fst snd]. unfold bind.
      rewrite Hok'. exact Hr'.
  - destruct (copy_spec cwd src (join dest n) X)
      as [(e0 & He & _)|(ps & c & m & t & _ & _ & _ & _ & _ & Hok)];
      [|rewrite Hok in E; discriminate].
    rewrite He in E. injection E as Ee <-. subst e0. injection H as <- <-.
    exists (Exc e). cbn [map run_steps exec_step fst snd]. unfold bind.
    rewrite He. reflexivity.
Qed.

End Rerun.

(* ------------------------------------------------------------------ *)
(** * [os.makedirs] below an existing directory *)

Lemma cut_last_noslash (x : string) : has_slash x = false -> cut_last x = ("", x).
Proof.
  induction x as [|c r IH]; [reflexivity|]. simpl.
  intros H. apply orb_false_iff in H as [Hc Hr]. rewrite (IH Hr). simpl.
  rewrite Hc. reflexivity.
Qed.

Lemma cut_last_app_slash (A x : string) :
  (A = "" \/ endswith_slash A = true) -> has_slash x = false ->
  cut_last (A ++ x) = (A, x).
Proof.
  induction A as [|c r IH]; intros HA Hx.
  - exact (cut_last_noslash x Hx).
  - rewrite app_String. simpl cut_last.
    destruct HA as [HA|HA]; [discriminate|].
    rewrite endswith_slash_cons in HA.
    destruct (String.eqb_spec r "") as [->|Hr].
    + rewrite app_Empty, (cut_last_noslash x Hx). simpl. rewrite HA. reflexivity.
    + rewrite (IH (or_intror HA) Hx).
      destruct (String.eqb_spec r "") as [|_]; [contradiction|]. reflexivity.
Qed.

Lemma rstrip_app_slash (Y : string) :
  Y <> "" -> endswith_slash Y = false -> rstrip_slash (Y ++ String slash "") = Y.
Proof.
  induction Y as [|c r IH]; intros HY He; [contradiction|].
  rewrite app_String, rstrip_cons. rewrite endswith_slash_cons in He.
  destruct (String.eqb_spec r "") as [->|Hr].
  - simpl in He |- *. rewrite He. reflexivity.
  - destruct (String.eqb_spec r "") as [|_] in He; [contradiction|].
    rewrite (IH Hr He). destruct (String.eqb_spec r "") as [|_]; [contradiction|].
    reflexivity.
Qed.

Lemma all_slashes_endswith (Y : string) :
  Y <> "" -> all_slashes Y = true -> endswith_slash Y = true.
Proof.
  induction Y as [|c r IH]; intros HY H; [contradiction|].
  simpl in H. apply andb_true_iff in H as [Hc Hr].
  rewrite endswith_slash_cons. destruct (String.eqb_spec r "") as [->|Hne].
  - exact Hc.
  - exact (IH Hne Hr).
Qed.

Lemma all_slashes_app_slash (Y : string) :
  all_slashes (Y ++ String slash "") = all_slashes Y.
Proof.
  induction Y as [|c r IH]; [reflexivity|].
  rewrite app_String. simpl. rewrite IH. reflexivity.
Qed.

(** [os.makedirs] splits [join(Y, x)] back into [Y] and [x]. *)
Lemma makedirs_split_join (Y x : string) :
  Y <> "" -> (endswith_slash Y = false \/ all_slashes Y = true) ->
  plain_name x = true -> makedirs_split (join Y x) = (Y, x).
Proof.
  intros HY Hok Hx. apply plain_name_spec in Hx as (Hx1 & Hx2 & _).
  unfold makedirs_split, psplit, join. rewrite (has_slash_startswith x Hx2).
  destruct (String.eqb_spec Y "") as [|_]; [contradiction|].
  destruct (endswith_slash Y) eqn:Ee; simpl orb; cbv iota.
  - destruct Hok as [Hok|Ha]; [discriminate|].
    rewrite (cut_last_app_slash Y x (or_intror Ee) Hx2).
    destruct (String.eqb_spec Y "") as [|_]; [contradiction|].
    rewrite Ha. simpl. destruct (String.eqb_spec x "") as [|_]; [contradiction|].
    reflexivity.
  - replace (Y ++ String slash x) with ((Y ++ String slash "") ++ x)
      by (rewrite append_assoc', app_String, app_Empty; reflexivity).
    rewrite (cut_last_app_slash _ x (or_intror (endswith_slash_app_slash Y)) Hx2).
    destruct (String.eqb_spec (Y ++ String slash "") "") as [E|_].
    { destruct Y; [contradiction|discriminate]. }
    rewrite all_slashes_app_slash.
    destruct (all_slashes Y) eqn:Ea.
    { rewrite (all_slashes_endswith Y HY Ea) in Ee. discriminate. }
    simpl. rewrite (rstrip_app_slash Y HY Ee).
    destruct (String.eqb_spec x "") as [|_]; [contradiction|]. reflexivity.
Qed.

Lemma endswith_slash_app_ne (a b : string) :
  b <> "" -> endswith_slash (a ++ b) = endswith_slash b.
Proof.
  intros Hb. induction a as [|c r IH]; [reflexivity|].
  rewrite app_String, endswith_slash_cons, IH.
  destruct (String.eqb_spec (r ++ b) "") as [E|_]; [|reflexivity].
  destruct r; [contradiction|discriminate].
Qed.

Lemma endswith_noslash (b : string) : has_slash b = false -> endswith_slash b = false.
Proof.
  induction b as [|c r IH]; [reflexivity|]. simpl has_slash.
  intros H. apply orb_false_iff in H as [Hc Hr]. rewrite endswith_slash_cons.
  destruct (String.eqb r ""); [exact Hc|exact (IH Hr)].
Qed.

Lemma endswith_join_plain (Z m : string) :
  plain_name m = true -> endswith_slash (join Z m) = false.
Proof.
  intros Hm. apply plain_name_spec in Hm as (Hm1 & Hm2 & _).
  unfold join. rewrite (has_slash_startswith m Hm2).
  destruct (String.eqb Z "" || endswith_slash Z).
  - rewrite (endswith_slash_app_ne Z m Hm1). exact (endswith_noslash m Hm2).
  - rewrite (endswith_slash_app_ne Z (String slash m) ltac:(discriminate)).
    rewrite endswith_slash_cons.
    destruct (String.eqb_spec m "") as [|_]; [contradiction|].
    exact (endswith_noslash m Hm2).
Qed.

Lemma join_all_snoc (X : string) (ms : list string) (x : string) :
  join_all X (ms ++ [x])%list = join (join_all X ms) x.
Proof. unfold join_all. rewrite fold_left_app. reflexivity. Qed.

Lemma join_all_nonempty (X : string) (ms : list string) :
  X <> "" -> join_all X ms <> "".
Proof.
  revert X. induction ms as [|m ms IH]; intros X HX; [exact HX|].
  apply IH. apply join_nonempty. exact HX.
Qed.

Lemma join_all_ok (X : string) (ms : list string) :
  (endswith_slash X = false \/ all_slashes X = true) ->
  (forall m, In m ms -> plain_name m = true) ->
  endswith_slash (join_all X ms) = false \/ all_slashes (join_all X ms) = true.
Proof.
  revert X. induction ms as [|m ms IH]; intros X HX Hms; [exact HX|].
  apply IH.
  - left. apply endswith_join_plain. apply Hms. left. reflexivity.
  - intros m' Hm'. apply Hms. right. exact Hm'.
Qed.

(** In a well-formed file system an entry has all its ancestors. *)
Lemma wf_ancestor (fs : fsys) (p r : apath) (n : node) :
  wf fs -> fs !! (p ++ r)%list = Some n -> exists n', fs !! p = Some n'.
Proof.
  intros [_ Hwf]. revert n. induction r as [|y r IH] using rev_ind; intros n H.
  - rewrite app_nil_r in H. eauto.
  - rewrite app_assoc in H.
    destruct (Hwf _ _ H) as [w Hw]; [destruct p, r; discriminate|].
    rewrite removelast_snoc in Hw. exact (IH _ Hw).
Qed.

Lemma dir_at_insert_none (fs : fsys) (t : apath) (v : node) (r : apath) :
  fs !! t = None -> dir_at fs r = true -> dir_at (<[t := v]> fs) r = true.
Proof.
  intros Ht Hd. unfold dir_at in *. destruct (decide (r = t)) as [->|Hne].
  - rewrite Ht in Hd. discriminate.
  - rewrite lookup_insert_ne by congruence. exact Hd.
Qed.

Section Creation.
Variable cwd : apath.

Lemma os_mkdir_new (s : string) (t : apath) (tr : bool) (fs : fsys) :
  create_target cwd fs s = inr (t, tr) -> fs !! t = None ->
  parent_writable fs t = true ->
  os_mkdir cwd s fs = (Ok tt, <[t := NDir true]> fs).
Proof. intros Hc Hn Hp. unfold os_mkdir. rewrite Hc, Hn, Hp. reflexivity. Qed.

(** A new directory [q/x] below the directory [Y] names, made by [mkdir]. *)
Lemma mkdir_below (fs : fsys) (Y x : string) (q : apath) :
  resolve cwd fs Y = inr (q, NDir true) -> plain_name x = true ->
  fs !! (q ++ [x])%list = None ->
  os_mkdir cwd (join Y x) fs = (Ok tt, <[(q ++ [x])%list := NDir true]> fs) /\
  resolve cwd (<[(q ++ [x])%list := NDir true]> fs) (join Y x) =
    inr ((q ++ [x])%list, NDir true).
Proof.
  intros Hr Hx Hn.
  destruct (create_target_join_plain cwd fs Y x q true Hr Hx) as [Hc Hw].
  destruct (resolve_inv cwd _ _ _ _ Hr) as (HY & _ & Hq).
  split.
  - apply (os_mkdir_new _ _ false); [exact Hc|exact Hn|].
    unfold parent_writable. rewrite removelast_snoc, Hq. reflexivity.
  - apply resolve_of_walk; [exact (join_nonempty Y x HY)| |apply lookup_insert_eq].
    apply (walk_mono fs); [|exact Hw].
    intros r. apply dir_at_insert_none. exact Hn.
Qed.

(** [os.makedirs(os.path.join(X, *ms), exist_ok=True)] where [X] names the
    writable directory [q], the names [ms] are plain and the first of them
    is missing below [q]: it returns normally, creating the directories
    [q/m1], [q/m1/m2], ..., and the path then names the directory
    [q ++ ms]. Entries deeper than [q ++ ms] do not change. *)
Lemma makedirs_creates (X : string) (q : apath) (ms : list string) :
  forall fs fuel m1,
  wf fs -> X <> "" -> (endswith_slash X = false \/ all_slashes X = true) ->
  resolve cwd fs X = inr (q, NDir true) ->
  (forall m, In m ms -> plain_name m = true) ->
  hd_error ms = Some m1 -> fs !! (q ++ [m1])%list = None ->
  String.length (join_all X ms) < fuel ->
  exists fs', makedirs_fuel cwd fuel (join_all X ms) true fs = (Ok tt, fs') /\
    resolve cwd fs' (join_all X ms) = inr ((q ++ ms)%list, NDir true) /\
    (forall p, length q + length ms < length p -> fs' !! p = fs !! p).
Proof.
  induction ms as [|x ms' IH] using rev_ind;
    intros fs fuel m1 Hwf HX HXok Hr Hms Hhd Hm1 Hlen; [discriminate|].
  assert (Hx : plain_name x = true) by (apply Hms; apply in_or_app; right; left; reflexivity).
  assert (Hms' : forall m, In m ms' -> plain_name m = true)
    by (intros m Hm; apply Hms; apply in_or_app; left; exact Hm).
  rewrite join_all_snoc in Hlen |- *.
  set (Y := join_all X ms') in *.
  assert (HY : Y <> "") by exact (join_all_nonempty X ms' HX).
  assert (Hsplit : makedirs_split (join Y x) = (Y, x))
    by exact (makedirs_split_join Y x HY (join_all_ok X ms' HXok Hms') Hx).
  pose proof (makedirs_split_shape _ _ _ Hsplit HY
                (proj1 (proj1 (plain_name_spec x) Hx))) as (_ & HlY & _).
  destruct fuel as [|fuel]; [lia|].
  rewrite makedirs_fuel_S, Hsplit.
  apply plain_name_spec in Hx as Hx'. destruct Hx' as (Hx1 & _ & Hx3 & _).
  destruct (String.eqb_spec Y "") as [|_]; [contradiction|].
  destruct (String.eqb_spec x "") as [|_]; [contradiction|].
  apply String.eqb_neq in Hx3.
  cbn [negb andb]. cbv iota beta.
  destruct ms' as [|m0 ms0] eqn:Ems.
  - (* [Y = X]: [X] exists, so [mkdir] runs at once *)
    simpl in Hhd. injection Hhd as <-.
    destruct (mkdir_below fs X x q Hr Hx Hm1) as [Hmk Hres].
    exists (<[(q ++ [x])%list := NDir true]> fs).
    erewrite bind_Ok.
    2:{ erewrite bind_Ok by apply path_exists_spec.
        unfold exists_b. subst Y. change (join_all X []) with X. rewrite Hr. reflexivity. }
    cbv beta iota. split; [|split].
    + apply catch_Ok. exact Hmk.
    + exact Hres.
    + intros p Hp. apply lookup_insert_ne. intros <-.
      rewrite !length_app in Hp. simpl in Hp. lia.
  - rewrite <- Ems in *.
    assert (Hhd' : hd_error ms' = Some m1) by (subst ms'; exact Hhd).
    destruct (IH fs fuel m1 Hwf HX HXok Hr Hms' Hhd' Hm1 ltac:(lia))
      as (fsY & HmkY & HrY & HfrY).
    fold Y in HmkY, HrY.
    pose proof (makedirs_adds_dirs cwd fuel Y fs _ fsY HmkY) as Had.
    assert (Hnone : forall r, fs !! (q ++ m1 :: r)%list = None).
    { intros r. destruct (fs !! (q ++ m1 :: r)%list) as [n|] eqn:E; [|reflexivity].
      replace (q ++ m1 :: r)%list with ((q ++ [m1]) ++ r)%list in E
        by (rewrite <- app_assoc; reflexivity).
      destruct (wf_ancestor fs _ _ _ Hwf E) as [n' E']. congruence. }
    assert (Hms'1 : exists r, ms' = m1 :: r)
      by (subst ms'; simpl in Hhd; injection Hhd as ->; eauto).
    destruct Hms'1 as [r0 Er0].
    assert (Hex : exists_b cwd fs Y = false).
    { unfold exists_b. destruct (resolve cwd fs Y) as [e|[p n]] eqn:E; [reflexivity|].
      exfalso. destruct (resolve_inv cwd _ _ _ _ E) as (_ & Hw & Hp).
      apply (walk_mono fs fsY) in Hw; [|intros r; apply (proj1 (adds_dirs_keeps _ _ Had))].
      destruct (resolve_inv cwd _ _ _ _ HrY) as (_ & HwY & _).
      rewrite Hw in HwY. injection HwY as ->.
      rewrite Er0, Hnone in Hp. discriminate. }
    assert (HnY : fsY !! ((q ++ ms') ++ [x])%list = None).
    { rewrite HfrY; [rewrite Er0, <- app_assoc; apply Hnone|].
      rewrite !length_app. simpl. lia. }
    destruct (mkdir_below fsY Y x (q ++ ms')%list HrY Hx HnY) as [Hmk Hres].
    exists (<[((q ++ ms') ++ [x])%list := NDir true]> fsY).
    erewrite bind_Ok.
    2:{ erewrite bind_Ok by apply path_exists_spec. rewrite Hex. cbv beta iota.
        erewrite bind_Ok by (apply catch_Ok; exact HmkY). reflexivity. }
    cbv beta. rewrite Hx3. split; [|split].
    + apply catch_Ok. exact Hmk.
    + rewrite app_assoc. exact Hres.
    + intros p Hp. rewrite lookup_insert_ne.
      * apply HfrY. rewrite length_app in Hp. lia.
      * intros <-. rewrite !length_app in Hp. simpl in Hp. lia.
Qed.

End Creation.

(* ================================================================== *)
(** * [os.makedirs] along a whole path *)
















Section General.
Variable cwd : apath.







End General.


(* ------------------------------------------------------------------ *)
(** * More of what the library calls do *)

Lemma strip_trailing_last_slash (l : list string) (c : string) :
  c <> "" -> strip_trailing ((l ++ [c]) ++ [""])%list = ((l ++ [c])%list, true).
Proof.
  intros Hc. unfold strip_trailing.
  replace (rev ((l ++ [c]) ++ [""])%list) with ("" :: c :: rev l)
    by (rewrite rev_app_distr, rev_unit; reflexivity).
  cbn [drop_empty]. rewrite (str_eqb_refl' ""). cbn [drop_empty].
  destruct (String.eqb_spec c "") as [|_]; [contradiction|].
  cbn [rev]. rewrite rev_involutive. f_equal.
  rewrite (length_app (l ++ [c]) [""]). simpl length.
  destruct (Nat.eqb_spec (length (l ++ [c])) (length (l ++ [c]) + 1)); [lia|].
  reflexivity.
Qed.

Section Behaviour.
Variable cwd : apath.

(** The entry [stat] finds is the entry a creating call works on. *)
Lemma create_target_of_resolve (fs : fsys) (s : string) (p : apath) (n : node) :
  resolve cwd fs s = inr (p, n) -> exists tr, create_target cwd fs s = inr (p, tr).
Proof.
  intros Hr. destruct (resolve_inv cwd _ _ _ _ Hr) as (Hs & Hw & Hp).
  unfold create_target. destruct (String.eqb_spec s "") as [|_]; [contradiction|].
  destruct (strip_trailing (components s)) as [body tr] eqn:Est.
  destruct (strip_trailing_spec _ _ _ Est) as (j & Ecs & _ & Hb).
  exists tr. rewrite Ecs in Hw.
  destruct Hb as [Hb|(last & rinit & Hb & Hl)]; rewrite Hb.
  - apply (f_equal (@rev string)) in Hb. rewrite rev_involutive in Hb.
    simpl in Hb. subst body. simpl in Hw. apply walk_empties_result in Hw.
    subst p. reflexivity.
  - apply (f_equal (@rev string)) in Hb. rewrite rev_involutive in Hb.
    simpl in Hb. subst body.
    rewrite <- app_assoc, walk_app in Hw.
    destruct (walk fs (start cwd s) (rev rinit)) as [e|q] eqn:Eq; [discriminate|].
    change ([last] ++ empties j)%list with (last :: empties j) in Hw.
    destruct (walk_step_dir _ _ _ _ _ Hw) as [w Hq].
    simpl in Hw. rewrite Hq in Hw. apply walk_empties_result in Hw. subst p.
    rewrite Hq. unfold step.
    destruct (String.eqb_spec last "") as [|_]; [contradiction|]. simpl.
    destruct (String.eqb last "."), (String.eqb last ".."); reflexivity.
Qed.

(** [os.makedirs(name, exist_ok)] on a path that exists: it returns
    normally, changing nothing, when [exist_ok] is set and the path is a
    directory, and otherwise raises [FileExistsError] for [name], changing
    nothing. *)
Lemma makedirs_on_existing (fuel : nat) (name : string) (ok : bool) (fs : fsys)
    (p : apath) (n : node) :
  resolve cwd fs name = inr (p, n) ->
  makedirs_fuel cwd (S fuel) name ok fs =
    (match n with
     | NDir _ => if ok then Ok tt else Exc (OSError EEXIST name)
     | NFile _ _ => Exc (OSError EEXIST name)
     end, fs).
Proof.
  intros Hr.
  assert (Hmk : os_mkdir cwd name fs = (Exc (OSError EEXIST name), fs)).
  { unfold os_mkdir. destruct (create_target_of_resolve fs name p n Hr) as [tr ->].
    rewrite (resolve_lookup cwd _ _ _ _ Hr). reflexivity. }
  assert (Hend : catch (os_mkdir cwd name)
          (fun e =>
             match e with
             | OSError _ _ =>
                 let* d := path_isdir cwd name in
                 if negb ok || negb d then raise e else ret tt
             | _ => raise e
             end) fs =
          (match n with
           | NDir _ => if ok then Ok tt else Exc (OSError EEXIST name)
           | NFile _ _ => Exc (OSError EEXIST name)
           end, fs)).
  { rewrite (catch_Exc _ _ _ _ _ Hmk). cbv beta iota.
    erewrite bind_Ok by apply path_isdir_spec.
    unfold isdir_b. rewrite Hr. destruct n, ok; reflexivity. }
  rewrite makedirs_fuel_S.
  destruct (makedirs_split name) as [head tail] eqn:Esp.
  destruct (String.eqb_spec head "") as [Hh|Hh];
    destruct (String.eqb_spec tail "") as [Ht|Ht]; simpl negb; simpl andb;
    try (erewrite bind_Ok by reflexivity; exact Hend).
  destruct (resolve_inv cwd _ _ _ _ Hr) as (_ & Hw & _).
  destruct (makedirs_split_head_dir cwd _ _ _ _ _ Esp Hh Ht Hw) as (q & w' & Hq).
  erewrite bind_Ok.
  2:{ erewrite bind_Ok by apply path_exists_spec.
      unfold exists_b. rewrite Hq. reflexivity. }
  exact Hend.
Qed.

(** [shutil.copy] when the entry [open(dst, 'wb')] designates is an
    existing regular file other than the source: the file is rewritten
    with the source's content and mode when it is writable, and otherwise
    [PermissionError] is raised for the destination, changing nothing. *)
Lemma copy_onto_file (src dst : string) (fs : fsys) (ps t : apath)
    (c : string) (m : mode) (c' : string) (m' : mode) :
  resolve cwd fs src = inr (ps, NFile c m) -> mode_r m = true ->
  create_target cwd fs (copy_dst cwd fs src dst) = inr (t, false) -> t <> ps ->
  fs !! t = Some (NFile c' m') ->
  copy cwd src dst fs =
    if mode_w m' then (Ok tt, <[t := NFile c m]> fs)
    else (Exc (OSError EACCES (copy_dst cwd fs src dst)), fs).
Proof.
  intros Hr Hm Hc Hne Ht.
  rewrite copy_unfold. set (D := copy_dst cwd fs src dst) in *.
  assert (Hdt : dir_at fs t = false) by (unfold dir_at; rewrite Ht; reflexivity).
  assert (Hs : same_b cwd fs src D = false).
  { unfold same_b. rewrite Hr.
    destruct (resolve cwd fs D) as [e|[p n]] eqn:Er; [reflexivity|].
    pose proof (create_target_resolve_eq cwd fs D p t n false Er Hc) as ->.
    apply bool_decide_eq_false_2. congruence. }
  assert (Hcf : copyfile cwd src D fs =
    catch (write_file cwd D c)
          (fun e => if is_IsADirectoryError e then
                      let* ex := path_exists cwd D in
                      if negb ex then raise (OSError ENOENT D) else raise e
                    else raise e) fs).
  { unfold copyfile. erewrite bind_Ok by apply samefile_spec. cbv beta. rewrite Hs.
    erewrite bind_Ok; [reflexivity|unfold read_file; rewrite Hr, Hm; reflexivity]. }
  destruct (mode_w m') eqn:Emw.
  - assert (Hok : copyfile cwd src D fs = (Ok tt, <[t := NFile c m']> fs)).
    { rewrite Hcf. apply catch_Ok. unfold write_file. rewrite Hc, Ht, Emw. reflexivity. }
    rewrite (bind_Ok _ _ _ _ _ Hok).
    unfold copymode. erewrite bind_Ok.
    2:{ unfold os_stat.
        rewrite (resolve_insert_file cwd _ _ _ _ _ _ _ Hdt (not_eq_sym Hne) Hr).
        reflexivity. }
    simpl. unfold os_chmod.
    rewrite (resolve_created_file cwd _ _ _ _ _ Hdt Hc).
    rewrite insert_insert_eq. reflexivity.
  - apply bind_Exc. rewrite Hcf. erewrite catch_Exc.
    2:{ unfold write_file. rewrite Hc, Ht, Emw. reflexivity. }
    reflexivity.
Qed.

(** A trailing slash after a plain name below a directory. *)
Lemma create_target_join_slash (fs : fsys) (Y x : string) (q : apath) (w : bool) :
  resolve cwd fs Y = inr (q, NDir w) -> plain_name x = true ->
  create_target cwd fs (join Y x ++ String slash "") = inr ((q ++ [x])%list, true).
Proof.
  intros Hr Hp. pose proof Hp as Hp'.
  apply plain_name_spec in Hp' as (Hb1 & Hb2 & Hb3 & Hb4).
  destruct (join_walk_prefix cwd fs Y x q w Hr Hb2) as (L & HL & Hst & Hw).
  destruct (resolve_inv cwd _ _ _ _ Hr) as (HY & _ & Hq).
  pose proof (join_nonempty Y x HY) as HJ.
  unfold create_target.
  destruct (String.eqb_spec (join Y x ++ String slash "") "") as [E|_].
  { destruct (join Y x); [contradiction|discriminate]. }
  rewrite components_app_slash, HL. change (components "") with [""].
  rewrite (strip_trailing_last_slash L x Hb1), rev_unit, rev_involutive.
  rewrite (start_eq cwd _ (join Y x) (startswith_slash_app _ _ HJ)), Hst, Hw, Hq.
  apply String.eqb_neq in Hb3, Hb4. rewrite Hb3, Hb4. reflexivity.
Qed.

Lemma keeps_dirs_refl (fs : fsys) : keeps_dirs fs fs.
Proof. intros p w H. exact H. Qed.

Lemma keeps_dirs_trans (x y z : fsys) :
  keeps_dirs x y -> keeps_dirs y z -> keeps_dirs x z.
Proof. intros H1 H2 p w H. apply H2, H1, H. Qed.

(** Everything the script runs keeps the file system well formed, keeps
    every directory as it is and every regular file a regular file. *)
Lemma install_bindist_pres (argv : list string) :
  pres (fun a b => keeps_wf a b /\ keeps_dirs a b) (install_bindist cwd argv).
Proof.
  set (R := fun a b => keeps_wf a b /\ keeps_dirs a b).
  assert (Hrefl : forall fs, R fs fs)
    by (intros fs; split; [apply keeps_wf_refl|apply keeps_dirs_refl]).
  assert (Htrans : forall x y z, R x y -> R y z -> R x z).
  { intros x y z [A1 B1] [A2 B2].
    split; [exact (keeps_wf_trans _ _ _ A1 A2)|exact (keeps_dirs_trans _ _ _ B1 B2)]. }
  assert (Hget : forall i, pres R (argv_get argv i)).
  { intros i. unfold argv_get.
    destruct (nth_error argv i); [apply pres_ret|apply pres_raise]; exact Hrefl. }
  assert (Hmk : forall s, pres R (makedirs cwd s true)).
  { intros s fs r fs' H. pose proof (makedirs_adds_dirs cwd _ s fs r fs' H) as Had.
    split; [exact (adds_dirs_keeps _ _ Had)|].
    intros p w Hp. exact (proj1 Had p _ Hp). }
  assert (Hcp : forall s d, pres R (copy cwd s d)).
  { intros s d fs r fs' H. split; [exact (copy_keeps_wf cwd s d fs r fs' H)|].
    destruct (copy_spec cwd s d fs)
      as [(e & He & _)|(ps & c & m & t & _ & _ & _ & Hd & _ & Hok)].
    - rewrite He in H. inversion H; subst. apply keeps_dirs_refl.
    - rewrite Hok in H. inversion H; subst. intros p w Hp.
      rewrite lookup_insert_ne; [exact Hp|].
      intros ->. unfold dir_at in Hd. rewrite Hp in Hd. discriminate. }
  assert (Hfe : forall l (body : string -> PyM unit),
            (forall x, pres R (body x)) -> pres R (for_each l body)).
  { intros l body Hb. induction l as [|x l IH]; simpl.
    - apply pres_ret, Hrefl.
    - apply pres_bind; [exact Htrans|apply Hb|intros _; exact IH]. }
  unfold install_bindist.
  apply pres_bind; [exact Htrans|apply Hget|intros a2].
  apply pres_bind; [exact Htrans|apply Hmk|intros _].
  apply pres_bind; [exact Htrans|apply Hget|intros a3].
  apply pres_bind; [exact Htrans|apply Hget|intros a2'].
  apply pres_bind; [exact Htrans|apply Hget|intros a4].
  apply pres_bind; [exact Htrans|apply Hcp|intros _].
  apply Hfe. intros f.
  apply pres_bind; [exact Htrans|apply Hget|intros a1].
  apply pres_bind; [exact Htrans|apply Hget|intros a2''].
  apply Hcp.
Qed.

End Behaviour.

(* ================================================================== *)
(** * The claims *)

Module Claims.




(** C8: with no extra files the value of [source_dir] (argv[1]) plays no
    part: replacing it by any other string, for instance the name of a
    missing file or of a regular file, leaves the outcome, the exit status
    and the final file system unchanged. *)
Theorem C8_source_dir_unused (cwd : apath) (a0 a1 a1' a2 a3 a4 : string)
    (fs : fsys) :
  install_bindist cwd [a0; a1; a2; a3; a4] fs =
  install_bindist cwd [a0; a1'; a2; a3; a4] fs.
Proof.
  rewrite (install_bindist_steps cwd a0 a1 a2 a3 a4 []),
          (install_bindist_steps cwd a0 a1' a2 a3 a4 []).
  reflexivity.
Qed.

(** C9: with fewer than four positional arguments the script exits with
    status 1 and performs no copy: the only change to the file system is
    the one made by [os.makedirs(dest_dir, exist_ok=True)] when argv[2]
    (dest_dir) is present, and there is none when it is missing. *)
Theorem C9_missing_arguments (cwd : apath) (argv : list string) (fs : fsys)
    (Hlen : length argv < 5) :
  exit_status (fst (install_bindist cwd argv fs)) = 1 /\
  snd (install_bindist cwd argv fs) =
    match nth_error argv 2 with
    | Some a2 => snd (makedirs cwd a2 true fs)
    | None => fs
    end.
Proof.
  destruct argv as [|a0 [|a1 [|a2 [|a3 [|a4 rest]]]]];
    [split; reflexivity | split; reflexivity | split; reflexivity | | |].
  - unfold install_bindist, argv_get. simpl nth_error. cbv iota.
    unfold bind, raise, ret.
    destruct (makedirs cwd a2 true fs) as [[[]|e] fs1]; split; reflexivity.
  - unfold install_bindist, argv_get. simpl nth_error. cbv iota.
    unfold bind, raise, ret.
    destruct (makedirs cwd a2 true fs) as [[[]|e] fs1]; split; reflexivity.
  - simpl in Hlen. lia.
Qed.

Lemma C9_missing_arguments_witness :
  length ["install_bindist.py"; "src"; "out"] < 5 /\
  exit_status (fst (install_bindist [] ["install_bindist.py"; "src"; "out"]
                      (<[[] := NDir true]> ∅))) = 1.
Proof.
  split; [simpl; lia|].
  apply (C9_missing_arguments [] ["install_bindist.py"; "src"; "out"]).
  simpl; lia.
Defined.

(** C3: after [os.makedirs(dest_dir)] the script copies [main_src_path] to
    [join dest_dir main_dest_name], then, for each [f] of [extra_files] in
    the order of the command line, [join source_dir f] to
    [join dest_dir f]; and a copy onto an existing writable regular file
    (other than the source itself) overwrites it with the content and the
    mode of the readable regular source. *)
Theorem C3_copy_order (cwd : apath) (a0 a1 a2 a3 a4 : string)
    (extras : list string) (fs : fsys) :
  install_bindist cwd (a0 :: a1 :: a2 :: a3 :: a4 :: extras) fs =
    run_steps cwd ([SMakedirs a2; SCopy a3 (join a2 a4)] ++
                   map (fun f => SCopy (join a1 f) (join a2 f)) extras)%list fs /\
  (forall src dst fsk ps c m t c' m',
     resolve cwd fsk src = inr (ps, NFile c m) -> mode_r m = true ->
     resolve cwd fsk dst = inr (t, NFile c' m') -> mode_w m' = true ->
     t <> ps ->
     copy cwd src dst fsk = (Ok tt, <[t := NFile c m]> fsk)).
Proof.
  split; [apply install_bindist_steps|].
  intros src dst fsk ps c m t c' m' Hs Hm Hd Hw Hne.
  apply (copy_ok cwd src dst fsk ps t c m Hs Hm).
  - unfold isdir_b. rewrite Hd. reflexivity.
  - exact (create_target_of_resolve_file cwd _ _ _ _ _ Hd).
  - exact Hne.
  - right. exists c', m'. split; [exact (resolve_lookup cwd _ _ _ _ Hd)|exact Hw].
Qed.

Lemma C3_copy_order_witness :
  copy [] "src/app" "out/app"
    (<[["out"; "app"] := NFile "old" (Mode true true)]>
     (<[["out"] := NDir true]> (<[["src"; "app"] := NFile "new" (Mode true false)]>
      (<[["src"] := NDir true]> (<[[] := NDir true]> ∅))))) =
  (Ok tt, <[["out"; "app"] := NFile "new" (Mode true false)]>
    (<[["out"; "app"] := NFile "old" (Mode true true)]>
     (<[["out"] := NDir true]> (<[["src"; "app"] := NFile "new" (Mode true false)]>
      (<[["src"] := NDir true]> (<[[] := NDir true]> ∅)))))).
Proof.
  apply (proj2 (C3_copy_order [] "s" "src" "out" "src/app" "app" []
                  (<[[] := NDir true]> ∅))
           _ _ _ ["src"; "app"] _ _ _ "old" (Mode true true));
    [vm_compute; reflexivity | reflexivity | vm_compute; reflexivity
    | reflexivity | discriminate].
Defined.



(** C10: when, at invocation, [main_src_path] and
    [join dest_dir main_dest_name] name the same entry, or
    [join source_dir f] and [join dest_dir f] do for an [f] of
    [extra_files], the run raises and the exit status is 1. *)
Theorem C10_same_file_fails (cwd : apath) (a0 a1 a2 a3 a4 : string)
    (extras : list string) (fs : fsys) (p : apath) (n n' : node) :
  (resolve cwd fs a3 = inr (p, n) /\ resolve cwd fs (join a2 a4) = inr (p, n')) \/
  (exists f, In f extras /\ resolve cwd fs (join a1 f) = inr (p, n) /\
             resolve cwd fs (join a2 f) = inr (p, n')) ->
  exit_status (fst (install_bindist cwd (a0 :: a1 :: a2 :: a3 :: a4 :: extras) fs)) = 1.
Proof.
  intros Hsame. rewrite install_bindist_steps.
  assert (Hfail : forall src dst l1 l2,
    resolve cwd fs src = inr (p, n) -> resolve cwd fs dst = inr (p, n') ->
    install_steps a1 a2 a3 a4 extras = (l1 ++ SCopy src dst :: l2)%list ->
    exit_status (fst (run_steps cwd (install_steps a1 a2 a3 a4 extras) fs)) = 1).
  { intros src dst l1 l2 Hs Hd ->.
    destruct (run_steps_fail_if cwd l1 l2 (SCopy src dst) fs) as (e & fs' & ->);
      [|reflexivity].
    intros fsk Hk. simpl.
    destruct (resolve_keeps cwd _ _ _ _ _ Hk Hs) as (n1 & Hs1 & _).
    destruct (resolve_keeps cwd _ _ _ _ _ Hk Hd) as (n2 & Hd1 & _).
    destruct (copy_same_fails cwd _ _ _ _ _ _ Hs1 Hd1) as [e He]. eauto. }
  destruct Hsame as [[Hs Hd]|(f & Hin & Hs & Hd)].
  - exact (Hfail _ _ [SMakedirs a2] _ Hs Hd eq_refl).
  - destruct (in_split f extras Hin) as (pre & post & ->).
    apply (Hfail _ _ (SMakedirs a2 :: SCopy a3 (join a2 a4) ::
                      map (fun f => SCopy (join a1 f) (join a2 f)) pre)
                  (map (fun f => SCopy (join a1 f) (join a2 f)) post) Hs Hd).
    unfold install_steps. rewrite map_app. reflexivity.
Qed.

Lemma C10_same_file_fails_witness :
  exit_status (fst (install_bindist [] ["install_bindist.py"; "out"; "out"; "out/app"; "app"; "README"]
    (<[["out"; "app"] := NFile "A" (Mode true true)]>
      (<[["out"] := NDir true]> (<[[] := NDir true]> ∅))))) = 1.
Proof.
  apply (C10_same_file_fails [] "install_bindist.py" "out" "out" "out/app" "app" ["README"]
           (<[["out"; "app"] := NFile "A" (Mode true true)]>
             (<[["out"] := NDir true]> (<[[] := NDir true]> ∅)))
           ["out"; "app"] (NFile "A" (Mode true true)) (NFile "A" (Mode true true))).
  left. split; vm_compute; reflexivity.
Defined.

(** C5 (counterexample): with [main_dest_name = "."] the destination
    [join("out", ".")] is the directory itself, so [shutil.copy] writes
    [out/app], after [basename("src/app")]: a pre-existing file whose name
    is neither [main_dest_name] nor an extra file name is overwritten. *)
Lemma C5_unrelated_files_kept_counterexample :
  let fs0 : fsys := <[["out"; "app"] := NFile "old" (Mode true true)]>
               (<[["out"] := NDir true]>
                 (<[["src"; "app"] := NFile "new" (Mode true true)]>
                   (<[["src"] := NDir true]> (<[[] := NDir true]> ∅)))) in
  let argv := ["install_bindist.py"; "src"; "out"; "src/app"; "."] in
  "app" <> "." /\
  fs0 !! ["out"; "app"] = Some (NFile "old" (Mode true true)) /\
  fst (install_bindist [] argv fs0) = Ok tt /\
  snd (install_bindist [] argv fs0) !! ["out"; "app"] =
    Some (NFile "new" (Mode true true)).
Proof.
  cbv zeta. split; [discriminate|]. split; [|split]; vm_compute; reflexivity.
Qed.

(** C5 (amended): on a well-formed file system where [dest_dir] is an
    existing directory [pd], [os.makedirs(dest_dir, exist_ok=True)]
    returns normally and changes nothing; and when [main_dest_name] and
    every extra file name is a plain name (not empty, no slash, not [.] or
    [..]), every entry [pd/g] whose name [g] is neither [main_dest_name] nor
    an extra file name is the same after the run, whatever its result. *)
Theorem C5_unrelated_files_kept (cwd : apath) (a0 a1 a2 a3 a4 : string)
    (extras : list string) (fs : fsys) (pd : apath) (w : bool) (g : string) :
  wf fs -> resolve cwd fs a2 = inr (pd, NDir w) ->
  plain_name a4 = true -> (forall f, In f extras -> plain_name f = true) ->
  ~ In g (a4 :: extras) ->
  makedirs cwd a2 true fs = (Ok tt, fs) /\
  snd (install_bindist cwd (a0 :: a1 :: a2 :: a3 :: a4 :: extras) fs) !! (pd ++ [g])%list =
    fs !! (pd ++ [g])%list.
Proof.
  intros Hwf Hr Hp4 Hpx Hg.
  assert (Hmk : makedirs cwd a2 true fs = (Ok tt, fs))
    by exact (makedirs_existing_dir cwd _ a2 fs pd w Hr).
  split; [exact Hmk|].
  rewrite install_bindist_steps. unfold install_steps.
  change (run_steps cwd (SMakedirs a2 :: ?l) fs)
    with (bind (makedirs cwd a2 true) (fun _ => run_steps cwd l) fs).
  rewrite (bind_Ok _ _ _ _ _ Hmk).
  destruct (run_steps cwd _ fs) as [r fs'] eqn:E. simpl snd.
  refine (run_copies_frame cwd a2 g pd _ _ fs w r fs' Hwf Hr E).
  constructor.
  - exists a3, a4. split; [reflexivity|]. split; [exact Hp4|].
    intros ->. apply Hg. left. reflexivity.
  - apply List.Forall_forall. intros s Hs. apply in_map_iff in Hs as (f & <- & Hf).
    exists (join a1 f), f. split; [reflexivity|]. split; [exact (Hpx f Hf)|].
    intros ->. apply Hg. right. exact Hf.
Qed.

Lemma C5_unrelated_files_kept_witness :
  makedirs [] "out" true
    (<[["out"; "keep"] := NFile "K" (Mode true false)]>
      (<[["out"] := NDir true]>
        (<[["src"; "README"] := NFile "R" (Mode true true)]>
          (<[["src"] := NDir true]> (<[[] := NDir true]> ∅))))) =
  (Ok tt, <[["out"; "keep"] := NFile "K" (Mode true false)]>
      (<[["out"] := NDir true]>
        (<[["src"; "README"] := NFile "R" (Mode true true)]>
          (<[["src"] := NDir true]> (<[[] := NDir true]> ∅))))) /\
  snd (install_bindist [] ["install_bindist.py"; "src"; "out"; "src/README"; "app"; "README"]
    (<[["out"; "keep"] := NFile "K" (Mode true false)]>
      (<[["out"] := NDir true]>
        (<[["src"; "README"] := NFile "R" (Mode true true)]>
          (<[["src"] := NDir true]> (<[[] := NDir true]> ∅)))))) !! ["out"; "keep"] =
  (<[["out"; "keep"] := NFile "K" (Mode true false)]>
      (<[["out"] := NDir true]>
        (<[["src"; "README"] := NFile "R" (Mode true true)]>
          (<[["src"] := NDir true]> (<[[] := NDir true]> ∅)))) : fsys) !! ["out"; "keep"].
Proof.
  apply (C5_unrelated_files_kept [] "install_bindist.py" "src" "out" "src/README" "app"
           ["README"] _ ["out"] true "keep").
  - apply wf_b_wf. vm_compute. reflexivity.
  - vm_compute. reflexivity.
  - reflexivity.
  - intros f [<-|[]]. reflexivity.
  - intros [H|[H|[]]]; discriminate.
Defined.

(** C1 (counterexample): with [main_dest_name] also among [extra_files],
    every source a readable regular file and [dest_dir] a writable
    directory, the run exits with status 0, but [dest_dir/main_dest_name]
    ends up with the content of [source_dir/app], not that of
    [main_src_path]. *)
Lemma C1_install_contents_counterexample :
  let fs0 : fsys := <[["src"; "main"] := NFile "M" (Mode true true)]>
               (<[["src"; "app"] := NFile "A" (Mode true true)]>
                 (<[["out"] := NDir true]>
                   (<[["src"] := NDir true]> (<[[] := NDir true]> ∅)))) in
  let argv := ["install_bindist.py"; "src"; "out"; "src/main"; "app"; "app"] in
  fs0 !! ["src"; "main"] = Some (NFile "M" (Mode true true)) /\
  exit_status (fst (install_bindist [] argv fs0)) = 0 /\
  snd (install_bindist [] argv fs0) !! ["out"; "app"] = Some (NFile "A" (Mode true true)).
Proof. cbv zeta. split; [|split]; vm_compute; reflexivity. Qed.

(** C1 (amended): when [os.makedirs(dest_dir)] returns normally with
    [dest_dir] a writable directory [pd], [main_dest_name] and the extra
    file names are distinct plain names, [main_src_path] and every
    [join source_dir f] are readable regular files outside the entries
    [pd/n] written, and each of those entries is absent or a writable
    regular file, the run exits with status 0, [pd/main_dest_name] holds
    the content (and mode) of [main_src_path], and [pd/f] that of
    [join source_dir f] for every [f] of [extra_files]. *)
Theorem C1_install_contents (cwd : apath) (a0 a1 a2 a3 a4 : string)
    (extras : list string) (fs fs1 : fsys) (pd pm : apath) (cm : string)
    (mm : mode) :
  makedirs cwd a2 true fs = (Ok tt, fs1) ->
  resolve cwd fs1 a2 = inr (pd, NDir true) ->
  plain_name a4 = true -> (forall f, In f extras -> plain_name f = true) ->
  NoDup (a4 :: extras) ->
  resolve cwd fs a3 = inr (pm, NFile cm mm) -> mode_r mm = true ->
  (forall f, In f extras -> exists pf c m,
     resolve cwd fs (join a1 f) = inr (pf, NFile c m) /\ mode_r m = true) ->
  (forall p n, (p = pm \/ exists f c m, In f extras /\
                  resolve cwd fs (join a1 f) = inr (p, NFile c m)) ->
               In n (a4 :: extras) -> p <> (pd ++ [n])%list) ->
  (forall n, In n (a4 :: extras) -> fs1 !! (pd ++ [n])%list = None \/
     exists c m, fs1 !! (pd ++ [n])%list = Some (NFile c m) /\ mode_w m = true) ->
  exit_status (fst (install_bindist cwd (a0 :: a1 :: a2 :: a3 :: a4 :: extras) fs)) = 0 /\
  snd (install_bindist cwd (a0 :: a1 :: a2 :: a3 :: a4 :: extras) fs) !! (pd ++ [a4])%list =
    Some (NFile cm mm) /\
  (forall f, In f extras -> exists pf c m,
     resolve cwd fs (join a1 f) = inr (pf, NFile c m) /\
     snd (install_bindist cwd (a0 :: a1 :: a2 :: a3 :: a4 :: extras) fs) !! (pd ++ [f])%list =
       Some (NFile c m)).
Proof.
  intros Hmk Hpd Hp4 Hpx Hnd Hm Hmr Hx Hsep Hdst.
  pose proof (makedirs_adds_dirs cwd (S (String.length a2)) a2 fs _ fs1 Hmk) as Had.
  set (l := (a3, a4) :: map (fun f => (join a1 f, f)) extras).
  assert (Hsnd : map snd l = a4 :: extras).
  { unfold l. simpl. rewrite map_map. simpl. rewrite map_id. reflexivity. }
  destruct (copies_ok cwd a2 pd l fs1) as (fs' & Hrun & Hval & _).
  - exact Hpd.
  - rewrite Hsnd. exact Hnd.
  - intros src n Hin. rewrite Hsnd.
    assert (Hsrc : plain_name n = true /\ exists ps c m,
              resolve cwd fs src = inr (ps, NFile c m) /\ mode_r m = true /\
              (ps = pm \/ exists f c m, In f extras /\
                 resolve cwd fs (join a1 f) = inr (ps, NFile c m)) /\
              In n (a4 :: extras)).
    { destruct Hin as [E|Hin].
      - injection E as <- <-. split; [exact Hp4|]. exists pm, cm, mm.
        split; [exact Hm|]. split; [exact Hmr|]. split; left; reflexivity.
      - apply in_map_iff in Hin as (f & E & Hf). injection E as <- <-.
        split; [exact (Hpx f Hf)|].
        destruct (Hx f Hf) as (pf & c & m & Hs & Hmf). exists pf, c, m.
        split; [exact Hs|]. split; [exact Hmf|].
        split; [right; exists f, c, m; auto|right; exact Hf]. }
    destruct Hsrc as (Hp & ps & c & m & Hs & Hmr' & Hwho & Hinn).
    split; [exact Hp|]. split.
    + exists ps, c, m. split; [exact (resolve_adds_dirs cwd _ _ _ _ _ Had Hs)|].
      split; [exact Hmr'|]. intros n' Hn'. exact (Hsep ps n' Hwho Hn').
    + exact (Hdst n Hinn).
  - assert (Ei : install_bindist cwd (a0 :: a1 :: a2 :: a3 :: a4 :: extras) fs =
                 (Ok tt, fs')).
    { rewrite install_bindist_steps. unfold install_steps.
      change (run_steps cwd (SMakedirs a2 :: ?l0) fs)
        with (bind (makedirs cwd a2 true) (fun _ => run_steps cwd l0) fs).
      rewrite (bind_Ok _ _ _ _ _ Hmk). rewrite <- Hrun. f_equal. f_equal.
      unfold l. simpl. rewrite map_map. reflexivity. }
    rewrite Ei. split; [reflexivity|]. split.
    + destruct (Hval a3 a4 (or_introl eq_refl)) as (ps & c & m & Hs & Hv).
      simpl snd. rewrite (resolve_adds_dirs cwd _ _ _ _ _ Had Hm) in Hs.
      injection Hs as <- <- <-. exact Hv.
    + intros f Hf. destruct (Hval (join a1 f) f) as (ps & c & m & Hs & Hv).
      { right. apply in_map_iff. exists f. auto. }
      destruct (Hx f Hf) as (pf & c0 & m0 & Hs0 & _).
      rewrite (resolve_adds_dirs cwd _ _ _ _ _ Had Hs0) in Hs.
      injection Hs as <- <- <-. exists pf, c0, m0. split; [exact Hs0|exact Hv].
Qed.

Lemma C1_install_contents_witness :
  let fs0 : fsys := <[["src"; "main"] := NFile "M" (Mode true true)]>
               (<[["src"; "README"] := NFile "R" (Mode true false)]>
                 (<[["src"] := NDir true]> (<[[] := NDir true]> ∅))) in
  let argv := ["install_bindist.py"; "src"; "out"; "src/main"; "app"; "README"] in
  exit_status (fst (install_bindist [] argv fs0)) = 0 /\
  snd (install_bindist [] argv fs0) !! ["out"; "app"] = Some (NFile "M" (Mode true true)) /\
  (forall f, In f ["README"] -> exists pf c m,
     resolve [] fs0 (join "src" f) = inr (pf, NFile c m) /\
     snd (install_bindist [] argv fs0) !! (["out"] ++ [f])%list = Some (NFile c m)).
Proof.
  cbv zeta.
  apply (C1_install_contents [] "install_bindist.py" "src" "out" "src/main" "app" ["README"]
    _ (snd (makedirs [] "out" true
             (<[["src"; "main"] := NFile "M" (Mode true true)]>
               (<[["src"; "README"] := NFile "R" (Mode true false)]>
                 (<[["src"] := NDir true]> (<[[] := NDir true]> ∅))))))
    ["out"] ["src"; "main"]).
  - vm_compute. reflexivity.
  - vm_compute. reflexivity.
  - reflexivity.
  - intros f [<-|[]]. reflexivity.
  - apply NoDup_ListNoDup. constructor; [intros [E|[]]; discriminate|].
    constructor; [intros []|constructor].
  - vm_compute. reflexivity.
  - reflexivity.
  - intros f [<-|[]]. exists ["src"; "README"], "R", (Mode true false).
    split; vm_compute; reflexivity.
  - intros p n Hp Hn.
    destruct Hp as [->|(f & c & m & [<-|[]] & Hr)].
    + destruct Hn as [<-|[<-|[]]]; intros E; inversion E.
    + vm_compute in Hr. injection Hr as <- _ _.
      destruct Hn as [<-|[<-|[]]]; intros E; inversion E.
  - intros n Hn. left. destruct Hn as [<-|[<-|[]]]; vm_compute; reflexivity.
Defined.

(** C6 (counterexample): with [main_dest_name = "b"] and
    [extra_files = ["a"; "b"]] and a read-only [source_dir/a], the first
    run leaves [out/b] with the content of [source_dir/b]. The second run
    rewrites [out/b] from [main_src_path] and then fails on the read-only
    [out/a], so [out/b] differs between one and two runs. *)
Lemma C6_idempotent_counterexample :
  let fs0 : fsys := <[["src"; "m"] := NFile "M" (Mode true true)]>
               (<[["src"; "a"] := NFile "A" (Mode true false)]>
                 (<[["src"; "b"] := NFile "B" (Mode true true)]>
                   (<[["out"] := NDir true]>
                     (<[["src"] := NDir true]> (<[[] := NDir true]> ∅))))) in
  let argv := ["install_bindist.py"; "src"; "out"; "src/m"; "b"; "a"; "b"] in
  snd (install_bindist [] argv fs0) !! ["out"; "b"] = Some (NFile "B" (Mode true true)) /\
  snd (install_bindist [] argv (snd (install_bindist [] argv fs0))) !! ["out"; "b"] =
    Some (NFile "M" (Mode true true)).
Proof. cbv zeta. split; vm_compute; reflexivity. Qed.

(** C6 (amended): on a well-formed file system, when the first
    [os.makedirs(dest_dir)] returns normally leaving [dest_dir] a
    directory [pd], [main_dest_name] and the extra file names are distinct
    plain names, and no source path lies at or below a [pd/n] for one of
    these names [n], running the script a second time from the file system
    the first run left (whatever its outcome) gives that same file system. *)
Theorem C6_idempotent (cwd : apath) (a0 a1 a2 a3 a4 : string)
    (extras : list string) (fs fs1 : fsys) (pd : apath) (w : bool) :
  wf fs -> makedirs cwd a2 true fs = (Ok tt, fs1) ->
  resolve cwd fs1 a2 = inr (pd, NDir w) ->
  plain_name a4 = true -> (forall f, In f extras -> plain_name f = true) ->
  NoDup (a4 :: extras) ->
  (forall src p, In src (a3 :: map (join a1) extras) ->
     walk fs1 (start cwd src) (components src) = inr p ->
     forall n rest, In n (a4 :: extras) -> p <> (pd ++ n :: rest)%list) ->
  snd (install_bindist cwd (a0 :: a1 :: a2 :: a3 :: a4 :: extras)
         (snd (install_bindist cwd (a0 :: a1 :: a2 :: a3 :: a4 :: extras) fs))) =
  snd (install_bindist cwd (a0 :: a1 :: a2 :: a3 :: a4 :: extras) fs).
Proof.
  intros Hwf Hmk Hpd Hp4 Hpx Hnd Hsrc.
  pose proof (makedirs_adds_dirs cwd (S (String.length a2)) a2 fs _ fs1 Hmk) as Had.
  pose proof (proj2 (proj2 Had) Hwf) as Hwf1.
  set (l := (a3, a4) :: map (fun f => (join a1 f, f)) extras).
  assert (Hsnd : map snd l = a4 :: extras).
  { unfold l. simpl. rewrite map_map. simpl. rewrite map_id. reflexivity. }
  assert (Ei : forall Y, install_bindist cwd (a0 :: a1 :: a2 :: a3 :: a4 :: extras) Y =
     bind (makedirs cwd a2 true)
          (fun _ => run_steps cwd (map (fun sn => SCopy (fst sn) (join a2 (snd sn))) l)) Y).
  { intros Y. rewrite install_bindist_steps. unfold install_steps.
    change (run_steps cwd (SMakedirs a2 :: ?l0) Y)
      with (bind (makedirs cwd a2 true) (fun _ => run_steps cwd l0) Y).
    unfold bind. destruct (makedirs cwd a2 true Y) as [[[]|e] Y1]; [|reflexivity].
    f_equal. unfold l. simpl. rewrite map_map. reflexivity. }
  rewrite !Ei. rewrite (bind_Ok _ _ _ _ _ Hmk).
  destruct (run_steps cwd _ fs1) as [r F] eqn:Hrun. cbn [snd].
  destruct (resolve_keeps cwd _ _ _ _ _
              (proj1 (run_steps_keeps_wf cwd _ _ _ _ Hrun)) Hpd)
    as (nF & HrF & HdirF & _).
  destruct (HdirF w eq_refl) as [wF ->].
  assert (Hmk2 : makedirs cwd a2 true F = (Ok tt, F))
    by exact (makedirs_existing_dir cwd _ a2 F pd wF HrF).
  rewrite (bind_Ok _ _ _ _ _ Hmk2).
  destruct (rerun_copies cwd a2 pd l fs1 w r F Hwf1 Hpd) as [r' Hr'].
  - rewrite Hsnd. exact Hnd.
  - intros src n [E|Hin].
    + injection E as <- <-. exact Hp4.
    + apply in_map_iff in Hin as (f & E & Hf). injection E as <- <-. exact (Hpx f Hf).
  - intros src n p Hin Hw n' rest Hn'. rewrite Hsnd in Hn'.
    apply (Hsrc src p); [|exact Hw|exact Hn'].
    destruct Hin as [E|Hin].
    + injection E as <- <-. left. reflexivity.
    + apply in_map_iff in Hin as (f & E & Hf). injection E as <- <-.
      right. apply in_map. exact Hf.
  - exact Hrun.
  - cbv beta. rewrite Hr'. reflexivity.
Qed.

Lemma C6_idempotent_witness :
  let fs0 : fsys := <[["src"; "main"] := NFile "M" (Mode true false)]>
               (<[["src"; "README"] := NFile "R" (Mode true true)]>
                 (<[["src"] := NDir true]> (<[[] := NDir true]> ∅))) in
  let argv := ["install_bindist.py"; "src"; "out"; "src/main"; "app"; "README"] in
  snd (install_bindist [] argv (snd (install_bindist [] argv fs0))) =
  snd (install_bindist [] argv fs0).
Proof.
  cbv zeta.
  apply (C6_idempotent [] "install_bindist.py" "src" "out" "src/main" "app" ["README"]
    _ (snd (makedirs [] "out" true
             (<[["src"; "main"] := NFile "M" (Mode true false)]>
               (<[["src"; "README"] := NFile "R" (Mode true true)]>
                 (<[["src"] := NDir true]> (<[[] := NDir true]> ∅))))))
    ["out"] true).
  - apply wf_b_wf. vm_compute. reflexivity.
  - vm_compute. reflexivity.
  - vm_compute. reflexivity.
  - reflexivity.
  - intros f [<-|[]]. reflexivity.
  - apply NoDup_ListNoDup. constructor; [intros [E|[]]; discriminate|].
    constructor; [intros []|constructor].
  - intros src p Hs Hw n rest Hn.
    destruct Hs as [<-|[<-|[]]]; vm_compute in Hw; injection Hw as <-;
      destruct Hn as [<-|[<-|[]]]; intros E; inversion E.
Defined.




End Claims.

(* ================================================================== *)
(** * Further properties of the calls the script makes *)

Module Extras.

(** X1: [os.path.basename(os.path.join(Y, x))] is [x] for every [x]
    without a slash. *)
Theorem X1_basename_join (Y x : string) :
  has_slash x = false -> basename (join Y x) = x.
Proof.
  intros Hx. unfold basename, join. rewrite (has_slash_startswith x Hx).
  destruct (String.eqb Y "" || endswith_slash Y) eqn:E; cbv iota.
  - rewrite cut_last_app_slash; [reflexivity| |exact Hx].
    apply orb_true_iff in E as [E|E]; [left; apply String.eqb_eq; exact E|right; exact E].
  - replace (Y ++ String slash x) with ((Y ++ String slash "") ++ x)
      by (rewrite append_assoc', app_String, app_Empty; reflexivity).
    rewrite cut_last_app_slash; [reflexivity|right; apply endswith_slash_app_slash|exact Hx].
Qed.

Lemma X1_basename_join_witness : basename (join "out/" "app") = "app".
Proof. apply X1_basename_join. reflexivity. Defined.

(** X2: [os.path.split(os.path.join(Y, x))] gives back [(Y, x)] when [x]
    is a non-empty name without slash and [Y] is non-empty and either has
    no trailing slash or consists of slashes only. *)
Theorem X2_split_join (Y x : string) :
  Y <> "" -> (endswith_slash Y = false \/ all_slashes Y = true) ->
  x <> "" -> has_slash x = false -> psplit (join Y x) = (Y, x).
Proof.
  intros HY Hok Hx1 Hx2.
  unfold psplit, join. rewrite (has_slash_startswith x Hx2).
  destruct (String.eqb_spec Y "") as [|_]; [contradiction|].
  destruct (endswith_slash Y) eqn:Ee; simpl orb; cbv iota.
  - destruct Hok as [Hok|Ha]; [discriminate|].
    rewrite (cut_last_app_slash Y x (or_intror Ee) Hx2).
    destruct (String.eqb_spec Y "") as [|_]; [contradiction|].
    rewrite Ha. reflexivity.
  - replace (Y ++ String slash x) with ((Y ++ String slash "") ++ x)
      by (rewrite append_assoc', app_String, app_Empty; reflexivity).
    rewrite (cut_last_app_slash _ x (or_intror (endswith_slash_app_slash Y)) Hx2).
    destruct (String.eqb_spec (Y ++ String slash "") "") as [E|_].
    { destruct Y; [contradiction|discriminate]. }
    rewrite all_slashes_app_slash.
    destruct (all_slashes Y) eqn:Ea.
    { rewrite (all_slashes_endswith Y HY Ea) in Ee. discriminate. }
    simpl. rewrite (rstrip_app_slash Y HY Ee). reflexivity.
Qed.

Lemma X2_split_join_witness : psplit (join "out/bin" "app") = ("out/bin", "app").
Proof. apply X2_split_join; [discriminate|left; reflexivity|discriminate|reflexivity]. Defined.

(** X3: when [Y] names the directory [q] and [x] is a plain name,
    [os.path.join(Y, x)] names the entry [q/x]: [stat] finds it when it
    exists and fails with [ENOENT] when it does not. *)
Theorem X3_resolve_join (cwd : apath) (fs : fsys) (Y x : string) (q : apath) (w : bool) :
  resolve cwd fs Y = inr (q, NDir w) -> plain_name x = true ->
  resolve cwd fs (join Y x) =
    match fs !! (q ++ [x])%list with
    | Some n => inr ((q ++ [x])%list, n)
    | None => inl ENOENT
    end.
Proof.
  intros Hr Hp.
  destruct (create_target_join_plain cwd fs Y x q w Hr Hp) as [_ Hw].
  destruct (resolve_inv cwd _ _ _ _ Hr) as (HY & _ & _).
  unfold resolve. destruct (String.eqb_spec (join Y x) "") as [E|_].
  { exfalso. exact (join_nonempty Y x HY E). }
  rewrite Hw. reflexivity.
Qed.

Lemma X3_resolve_join_witness :
  resolve ["home"] (<[["home"; "out"] := NDir true]>
                     (<[["home"] := NDir true]> (<[[] := NDir true]> ∅)))
          (join "out" "app") = inl ENOENT.
Proof.
  rewrite (X3_resolve_join ["home"] _ "out" "app" ["home"; "out"] true);
    vm_compute; reflexivity.
Defined.

(** X4: [os.makedirs(name, exist_ok)] on a path that exists changes
    nothing; it returns normally when [exist_ok] is true and the path is a
    directory, and otherwise raises [FileExistsError] for [name]. *)
Theorem X4_makedirs_existing (cwd : apath) (name : string) (ok : bool) (fs : fsys)
    (p : apath) (n : node) :
  resolve cwd fs name = inr (p, n) ->
  makedirs cwd name ok fs =
    (match n with
     | NDir _ => if ok then Ok tt else Exc (OSError EEXIST name)
     | NFile _ _ => Exc (OSError EEXIST name)
     end, fs).
Proof. intros Hr. unfold makedirs. exact (makedirs_on_existing cwd _ name ok fs p n Hr). Qed.

Lemma X4_makedirs_existing_witness :
  makedirs [] "out" false (<[["out"] := NDir true]> (<[[] := NDir true]> ∅)) =
    (Exc (OSError EEXIST "out"), <[["out"] := NDir true]> (<[[] := NDir true]> ∅)).
Proof.
  apply (X4_makedirs_existing [] "out" false _ ["out"] (NDir true)).
  vm_compute. reflexivity.
Defined.

(** X5: [os.makedirs(name, exist_ok=True)], whether it returns or raises,
    keeps every existing entry as it is, adds only directories, and keeps
    the file system well formed; directories it created before raising
    stay. *)
Theorem X5_makedirs_adds_only_dirs (cwd : apath) (name : string) (fs : fsys)
    (r : res unit) (fs' : fsys) :
  makedirs cwd name true fs = (r, fs') ->
  (forall p n, fs !! p = Some n -> fs' !! p = Some n) /\
  (forall p n, fs !! p = None -> fs' !! p = Some n -> exists w, n = NDir w) /\
  (wf fs -> wf fs').
Proof. intros H. exact (makedirs_adds_dirs cwd _ name fs r fs' H). Qed.

Lemma X5_makedirs_adds_only_dirs_witness :
  let fs0 : fsys := <[[] := NDir true]> ∅ in
  (forall p n, fs0 !! p = Some n -> snd (makedirs [] "a/b" true fs0) !! p = Some n) /\
  (forall p n, fs0 !! p = None -> snd (makedirs [] "a/b" true fs0) !! p = Some n ->
     exists w, n = NDir w) /\
  (wf fs0 -> wf (snd (makedirs [] "a/b" true fs0))).
Proof.
  cbv zeta.
  apply (X5_makedirs_adds_only_dirs [] "a/b" _
           (fst (makedirs [] "a/b" true (<[[] := NDir true]> ∅)))).
  vm_compute. reflexivity.
Defined.

(** X8: [shutil.copy] to [os.path.join(Y, x) + '/'], where [Y] names a
    directory and the plain name [x] does not exist in it, raises
    [FileNotFoundError] for that path (CPython's "Directory does not
    exist") instead of creating a file, and changes nothing. *)
Theorem X8_copy_trailing_slash_missing (cwd : apath) (src Y x : string) (fs : fsys)
    (ps q : apath) (c : string) (m : mode) (w : bool) :
  resolve cwd fs src = inr (ps, NFile c m) -> mode_r m = true ->
  resolve cwd fs Y = inr (q, NDir w) -> plain_name x = true ->
  fs !! (q ++ [x])%list = None ->
  copy cwd src (join Y x ++ String slash "") fs =
    (Exc (OSError ENOENT (join Y x ++ String slash "")), fs).
Proof.
  intros Hr Hm HY Hx Hn.
  set (D := join Y x ++ String slash "").
  pose proof (create_target_join_slash cwd fs Y x q w HY Hx) as Hc. fold D in Hc.
  assert (HD : forall e, resolve cwd fs D = inl e \/ False ->
                 exists e', resolve cwd fs D = inl e') by (intros e [H|[]]; eauto).
  assert (HrD : exists e, resolve cwd fs D = inl e).
  { destruct (resolve cwd fs D) as [e|[p n]] eqn:E; [eauto|].
    rewrite <- (create_target_resolve_eq cwd _ _ _ _ _ _ E Hc) in E.
    rewrite (resolve_lookup cwd _ _ _ _ E) in Hn. discriminate. }
  destruct HrD as [eD HrD]. clear HD.
  rewrite copy_unfold.
  assert (Hcd : copy_dst cwd fs src D = D) by (unfold copy_dst, isdir_b; rewrite HrD; reflexivity).
  rewrite Hcd. apply bind_Exc. unfold copyfile.
  erewrite bind_Ok by apply samefile_spec. cbv beta.
  replace (same_b cwd fs src D) with false by (unfold same_b; rewrite Hr, HrD; reflexivity).
  erewrite bind_Ok by (unfold read_file; rewrite Hr, Hm; reflexivity). cbv beta.
  erewrite catch_Exc.
  2:{ unfold write_file. rewrite Hc, Hn. reflexivity. }
  cbv beta. unfold is_IsADirectoryError. cbv iota.
  erewrite bind_Ok by apply path_exists_spec.
  unfold exists_b. rewrite HrD. reflexivity.
Qed.

Lemma X8_copy_trailing_slash_missing_witness :
  let fs0 : fsys := <[["src"; "app"] := NFile "A" (Mode true true)]>
    (<[["out"] := NDir true]> (<[["src"] := NDir true]> (<[[] := NDir true]> ∅))) in
  copy [] "src/app" (join "out" "bin" ++ String slash "") fs0 =
    (Exc (OSError ENOENT (join "out" "bin" ++ String slash "")), fs0).
Proof.
  cbv zeta.
  apply (X8_copy_trailing_slash_missing [] "src/app" "out" "bin" _
           ["src"; "app"] ["out"] "A" (Mode true true) true);
    vm_compute; reflexivity.
Defined.

(** X9: [shutil.copy] onto an existing regular file [dst] that is not
    the readable source file: when [dst] is writable it receives the
    source's content and mode, and nothing else changes; when it is
    read-only the copy raises [PermissionError] for [dst] and changes
    nothing. *)
Theorem X9_copy_onto_existing_file (cwd : apath) (src dst : string) (fs : fsys)
    (ps pd : apath) (c c' : string) (m m' : mode) :
  resolve cwd fs src = inr (ps, NFile c m) -> mode_r m = true ->
  resolve cwd fs dst = inr (pd, NFile c' m') -> pd <> ps ->
  copy cwd src dst fs =
    if mode_w m' then (Ok tt, <[pd := NFile c m]> fs)
    else (Exc (OSError EACCES dst), fs).
Proof.
  intros Hr Hm Hd Hne.
  assert (Hcd : copy_dst cwd fs src dst = dst)
    by (unfold copy_dst, isdir_b; rewrite Hd; reflexivity).
  pose proof (create_target_of_resolve_file cwd _ _ _ _ _ Hd) as Hc.
  rewrite <- Hcd in Hc.
  rewrite (copy_onto_file cwd src dst fs ps pd c m c' m' Hr Hm Hc Hne
             (resolve_lookup cwd _ _ _ _ Hd)).
  rewrite Hcd. reflexivity.
Qed.

Lemma X9_copy_onto_existing_file_witness :
  let fs0 : fsys := <[["out"; "app"] := NFile "old" (Mode true false)]>
    (<[["src"; "app"] := NFile "A" (Mode true true)]>
    (<[["out"] := NDir true]> (<[["src"] := NDir true]> (<[[] := NDir true]> ∅)))) in
  copy [] "src/app" "out/app" fs0 = (Exc (OSError EACCES "out/app"), fs0).
Proof.
  cbv zeta.
  apply (X9_copy_onto_existing_file [] "src/app" "out/app" _ ["src"; "app"] ["out"; "app"]
           "A" "old" (Mode true true) (Mode true false));
    [vm_compute; reflexivity..|discriminate].
Defined.

(** X10: [shutil.copy] fails on its source and changes nothing when the
    source does not resolve (the error of [stat], e.g.
    [FileNotFoundError]), is a directory ([IsADirectoryError]) or is an
    unreadable regular file ([PermissionError]), provided the destination
    [copyfile] uses is not the source itself. *)
Theorem X10_copy_source_errors (cwd : apath) (src dst : string) (fs : fsys) :
  (forall er, resolve cwd fs src = inl er ->
     copy cwd src dst fs = (Exc (OSError er src), fs)) /\
  (forall ps n, resolve cwd fs src = inr (ps, n) ->
     (forall pd nd, resolve cwd fs (copy_dst cwd fs src dst) = inr (pd, nd) -> pd <> ps) ->
     match n with
     | NDir _ => copy cwd src dst fs = (Exc (OSError EISDIR src), fs)
     | NFile _ m => mode_r m = false ->
                    copy cwd src dst fs = (Exc (OSError EACCES src), fs)
     end).
Proof.
  split.
  - intros er Hr. exact (copy_missing_src cwd src dst fs er Hr).
  - intros ps n Hr Hne.
    assert (Hs : same_b cwd fs src (copy_dst cwd fs src dst) = false).
    { unfold same_b. rewrite Hr.
      destruct (resolve cwd fs (copy_dst cwd fs src dst)) as [e|[pd nd]] eqn:E;
        [reflexivity|].
      apply bool_decide_eq_false_2. exact (not_eq_sym (Hne pd nd eq_refl)). }
    assert (Hpre : forall er, read_file cwd src fs = (Exc (OSError er src), fs) ->
              copy cwd src dst fs = (Exc (OSError er src), fs)).
    { intros er Hrd. rewrite copy_unfold. apply bind_Exc. unfold copyfile.
      erewrite bind_Ok by apply samefile_spec. cbv beta. rewrite Hs.
      apply bind_Exc. exact Hrd. }
    destruct n as [w|c m].
    + apply Hpre. unfold read_file. rewrite Hr. reflexivity.
    + intros Hm. apply Hpre. unfold read_file. rewrite Hr, Hm. reflexivity.
Qed.

(** X11: running a [shutil.copy] that returned normally once more on its
    result changes nothing when the source's mode is writable; when the
    source is read-only the copied file is read-only too and the second
    copy raises [PermissionError] for its destination, changing
    nothing. *)
Theorem X11_copy_rerun (cwd : apath) (src dst : string) (fs fs' : fsys) :
  copy cwd src dst fs = (Ok tt, fs') ->
  exists ps c m, resolve cwd fs src = inr (ps, NFile c m) /\
    (mode_w m = true -> copy cwd src dst fs' = (Ok tt, fs')) /\
    (mode_w m = false ->
       copy cwd src dst fs' = (Exc (OSError EACCES (copy_dst cwd fs src dst)), fs')).
Proof.
  intros H.
  destruct (copy_spec cwd src dst fs)
    as [(e & He & _)|(ps & c & m & t & Hr & Hm & Hc & Hd & Hne & Hok)];
    [rewrite He in H; discriminate|].
  rewrite Hok in H. injection H as <-.
  exists ps, c, m. split; [exact Hr|].
  set (F := <[t := NFile c m]> fs).
  pose proof (dir_at_insert_file fs t c m Hd) as Hdirs.
  pose proof (resolve_insert_file cwd fs t c m src ps _ Hd (not_eq_sym Hne) Hr) as Hr'.
  assert (HD : copy_dst cwd F src dst = copy_dst cwd fs src dst).
  { unfold copy_dst. rewrite (isdir_b_same_dirs cwd fs F dst (fun p => eq_sym (Hdirs p))).
    reflexivity. }
  assert (Hc' : create_target cwd F (copy_dst cwd F src dst) = inr (t, false)).
  { rewrite HD. exact (create_target_same_dirs cwd F fs _ _ Hdirs Hc). }
  pose proof (copy_onto_file cwd src dst F ps t c m c m Hr' Hm Hc' Hne
                (lookup_insert_eq fs t _)) as E.
  rewrite HD in E. split; intros Hw; rewrite E, Hw; [|reflexivity].
  unfold F. rewrite insert_insert_eq. reflexivity.
Qed.

Lemma X11_copy_rerun_witness :
  let fs0 : fsys := <[["src"; "app"] := NFile "A" (Mode true false)]>
    (<[["out"] := NDir true]> (<[["src"] := NDir true]> (<[[] := NDir true]> ∅))) in
  exists ps c m, resolve [] fs0 "src/app" = inr (ps, NFile c m) /\
    (mode_w m = true ->
       copy [] "src/app" "out" (snd (copy [] "src/app" "out" fs0)) =
         (Ok tt, snd (copy [] "src/app" "out" fs0))) /\
    (mode_w m = false ->
       copy [] "src/app" "out" (snd (copy [] "src/app" "out" fs0)) =
         (Exc (OSError EACCES (copy_dst [] fs0 "src/app" "out")),
          snd (copy [] "src/app" "out" fs0))).
Proof.
  cbv zeta. apply X11_copy_rerun. vm_compute. reflexivity.
Defined.

(** X12: when [sys.argv[2]] names an existing regular file, the script
    raises [FileExistsError] for it in [os.makedirs] before any copy,
    whatever the other arguments, and the file system is unchanged. *)
Theorem X12_dest_is_file (cwd : apath) (argv : list string) (a2 : string)
    (fs : fsys) (p : apath) (c : string) (m : mode) :
  nth_error argv 2 = Some a2 -> resolve cwd fs a2 = inr (p, NFile c m) ->
  install_bindist cwd argv fs = (Exc (OSError EEXIST a2), fs).
Proof.
  intros H2 Hr. unfold install_bindist.
  assert (Ha : argv_get argv 2 fs = (Ok a2, fs))
    by (unfold argv_get; rewrite H2; reflexivity).
  rewrite (bind_Ok _ _ _ _ _ Ha). apply bind_Exc.
  unfold makedirs. exact (makedirs_on_existing cwd _ a2 true fs p (NFile c m) Hr).
Qed.

Lemma X12_dest_is_file_witness :
  let fs0 : fsys := <[["out"] := NFile "x" (Mode true true)]> (<[[] := NDir true]> ∅) in
  install_bindist [] ["install_bindist.py"; "src"; "out"; "src/app"; "app"] fs0 =
    (Exc (OSError EEXIST "out"), fs0).
Proof.
  cbv zeta.
  apply (X12_dest_is_file [] _ "out" _ ["out"] "x" (Mode true true));
    [reflexivity|vm_compute; reflexivity].
Defined.

(** X13: every run of the script, whatever its arguments and whether it
    exits normally or not, keeps a well-formed file system well formed,
    leaves every existing directory as it was (write bit included), and
    leaves every regular file a regular file: nothing is deleted, and an
    existing directory is never written to as a file. *)
Theorem X13_script_keeps_entries (cwd : apath) (argv : list string) (fs : fsys)
    (r : res unit) (fs' : fsys) :
  install_bindist cwd argv fs = (r, fs') ->
  (wf fs -> wf fs') /\
  (forall p w, fs !! p = Some (NDir w) -> fs' !! p = Some (NDir w)) /\
  (forall p, file_at fs p = true -> file_at fs' p = true).
Proof.
  intros H. destruct (install_bindist_pres cwd argv fs r fs' H) as [[Hk Hw] Hd].
  split; [exact Hw|]. split; [exact Hd|]. intros p. apply (Hk p).
Qed.

Lemma X13_script_keeps_entries_witness :
  let fs0 : fsys := <[["src"; "app"] := NFile "A" (Mode true true)]>
    (<[["src"] := NDir true]> (<[[] := NDir true]> ∅)) in
  let argv := ["install_bindist.py"; "src"; "out"; "src/app"; "app"] in
  (wf fs0 -> wf (snd (install_bindist [] argv fs0))) /\
  (forall p w, fs0 !! p = Some (NDir w) ->
     snd (install_bindist [] argv fs0) !! p = Some (NDir w)) /\
  (forall p, file_at fs0 p = true -> file_at (snd (install_bindist [] argv fs0)) p = true).
Proof.
  cbv zeta.
  set (argv := ["install_bindist.py"; "src"; "out"; "src/app"; "app"]).
  set (fs0 := <[["src"; "app"] := NFile "A" (Mode true true)]>
                (<[["src"] := NDir true]> (<[[] := NDir true]> ∅)) : fsys).
  apply (X13_script_keeps_entries [] argv fs0
           (fst (install_bindist [] argv fs0)) (snd (install_bindist [] argv fs0))).
  vm_compute. reflexivity.
Defined.

End Extras.
